(** * ItemGenerator: the generator lifecycle of [scripts/main.js]

    A shallow embedding of the Bedrock script [scripts/main.js] and the
    properties of its generator lifecycle.

    Conventions of the embedding.
    - JavaScript strings are [string]s that hold the text in UTF-8; the
      host functions [startsWith], [replace], [split], [parseInt] and
      [String] are written out below.  What the script searches for
      ([gen:], [minecraft:], the comma) is ASCII, so matching and splitting
      by bytes is matching and splitting by characters.
    - The numbers [parseInt] produces are integers or NaN ([Number]) and
      are kept exact.  A double is exact up to 2^53 - 1
      ([MAX_SAFE_INTEGER]); beyond it the host rounds, writes numbers from
      1e21 on with an exponent, and ends in Infinity, none of which is
      modelled.  Every property that depends on the value of a number
      therefore carries that bound.  Coordinates are rationals ([Q]):
      block coordinates are integers, entity coordinates are continuous,
      and the script only adds and subtracts 0.5, 1, 98, 99 and 100.
    - The world is explicit state: three dimensions, each with its blocks,
      its entities and the item stacks spawned into it, plus the messages.
      Script code runs in a state-and-exception monad over it.  Only the
      script changes the world: entities stay where they are put, and
      what players or the game's physics do between steps is written as an
      explicit change of the world where a property needs it.
    - The host's block calls are taken at positions where they succeed: in
      a loaded chunk and within the height of the world.  Elsewhere the
      host raises an error, which the script nowhere handles; that is
      outside this model.
    - The item system of the host ([new ItemStack], [spawnItem]) is a
      parameter: a predicate that says which item types and amounts it
      takes. *)

From Stdlib Require Import ZArith QArith Qround Lqa Ascii String List Lia.
From stdpp Require Import gmap strings list pretty.

Local Open Scope string_scope.
Local Open Scope list_scope.
Local Open Scope Z_scope.

(** ** JavaScript strings *)

(** [strip_prefix p s] is the rest of [s] after the prefix [p], if [s]
    begins with [p]. *)
Fixpoint strip_prefix (p s : string) : option string :=
  match p, s with
  | EmptyString, _ => Some s
  | String a p', String b s' =>
      if Ascii.eqb a b then strip_prefix p' s' else None
  | String _ _, EmptyString => None
  end.

(** [s.startsWith(p)] *)
Definition startsWith (s p : string) : bool :=
  match strip_prefix p s with Some _ => true | None => false end.

(** [s.replace(pat, repl)] with a string pattern: the first occurrence only. *)
Fixpoint replace (pat repl s : string) : string :=
  match strip_prefix pat s with
  | Some rest => repl +:+ rest
  | None =>
      match s with
      | EmptyString => EmptyString
      | String c s' => String c (replace pat repl s')
      end
  end.

(** [s.split(sep)] for a one-character separator. *)
Fixpoint split (sep : ascii) (s : string) : list string :=
  match s with
  | EmptyString => [EmptyString]
  | String c s' =>
      if Ascii.eqb c sep then EmptyString :: split sep s'
      else match split sep s' with
           | f :: fs => String c f :: fs
           | [] => [String c EmptyString]
           end
  end.

(** [s] holds no occurrence of the character [c]. *)
Fixpoint lacks (c : ascii) (s : string) : bool :=
  match s with
  | EmptyString => true
  | String a s' => negb (Ascii.eqb a c) && lacks c s'
  end.

(** [s] is made of decimal digits only. *)
Definition is_digit (c : ascii) : bool :=
  let n := nat_of_ascii c in ((48 <=? n) && (n <=? 57))%nat.

Fixpoint all_digits (s : string) : bool :=
  match s with
  | EmptyString => true
  | String a s' => is_digit a && all_digits s'
  end.

(** ** JavaScript numbers as the script uses them *)

(** The values [parseInt] returns, kept exact: an integer, or NaN.  Up to
    [MAX_SAFE_INTEGER] in magnitude this is the double the host computes. *)
Inductive Number :=
  | NaN
  | Int (z : Z).

Definition isNaN (n : Number) : bool :=
  match n with NaN => true | Int _ => false end.

(** [String(n)] and the number's rendering in a template literal: the
    decimal digits, which is what the host writes for an integer below
    1e21. *)
Definition String_ (n : Number) : string :=
  match n with NaN => "NaN" | Int z => pretty z end.

(** White space as [parseInt] trims it: the WhiteSpace and LineTerminator
    characters of ECMAScript.  In UTF-8 six of them take one byte: U+0009
    to U+000D and U+0020. *)
Definition is_space (c : ascii) : bool :=
  let n := nat_of_ascii c in
  ((9 <=? n) && (n <=? 13))%nat || (n =? 32)%nat.

(** One takes two bytes: U+00A0, the no-break space. *)
Definition is_space2 (a b : ascii) : bool :=
  ((nat_of_ascii a =? 194) && (nat_of_ascii b =? 160))%nat.

(** The others take three: U+1680, U+2000 to U+200A, U+2028, U+2029,
    U+202F, U+205F, U+3000 (the ideographic space) and U+FEFF. *)
Definition is_space3 (a b c : ascii) : bool :=
  let a := nat_of_ascii a in
  let b := nat_of_ascii b in
  let c := nat_of_ascii c in
  ((a =? 225) && (b =? 154) && (c =? 128)
   || (a =? 226) && (b =? 128)
      && ((128 <=? c) && (c <=? 138) || (c =? 168) || (c =? 169) || (c =? 175))
   || (a =? 226) && (b =? 129) && (c =? 159)
   || (a =? 227) && (b =? 128) && (c =? 128)
   || (a =? 239) && (b =? 187) && (c =? 191))%nat.

Fixpoint skip_space (s : string) : string :=
  match s with
  | String a s1 =>
      if is_space a then skip_space s1
      else
        match s1 with
        | String b s2 =>
            if is_space2 a b then skip_space s2
            else
              match s2 with
              | String c s3 => if is_space3 a b c then skip_space s3 else s
              | EmptyString => s
              end
        | EmptyString => s
        end
  | EmptyString => s
  end.

(** The value of [c] as a digit of the given radix (10 or 16). *)
Definition digit_value (radix : Z) (c : ascii) : option Z :=
  let n := Z.of_nat (nat_of_ascii c) in
  let v :=
    (if (48 <=? n) && (n <=? 57) then Some (n - 48)
     else if (97 <=? n) && (n <=? 102) then Some (n - 87)
     else if (65 <=? n) && (n <=? 70) then Some (n - 55)
     else None)%Z in
  match v with
  | Some d => if (d <? radix)%Z then Some d else None
  | None => None
  end.

(** The longest prefix of digits, read most significant first; [acc] is
    [None] until a digit has been read. *)
Fixpoint parse_digits (radix : Z) (acc : option Z) (s : string) : option Z :=
  match s with
  | String c s' =>
      match digit_value radix c with
      | Some d => parse_digits radix (Some (default 0 acc * radix + d)) s'
      | None => acc
      end
  | EmptyString => acc
  end.

(** An optional sign. *)
Definition strip_sign (s : string) : bool * string :=
  match s with
  | String "-" s' => (true, s')
  | String "+" s' => (false, s')
  | _ => (false, s)
  end.

(** A [0x] or [0X] prefix selects radix 16 when none is given. *)
Definition strip_radix (s : string) : Z * string :=
  match s with
  | String "0" (String "x" s') => (16, s')
  | String "0" (String "X" s') => (16, s')
  | _ => (10, s)
  end.

(** [parseInt(s)] without a radix argument. *)
Definition parseInt (s : string) : Number :=
  let '(neg, s1) := strip_sign (skip_space s) in
  let '(radix, s2) := strip_radix s1 in
  match parse_digits radix None s2 with
  | Some v => Int (if neg then - v else v)
  | None => NaN
  end.

(** A JavaScript value that may be [undefined]; [parseInt(undefined)]
    reads the text "undefined" and finds no digit. *)
Definition parseIntU (v : option string) : Number :=
  match v with Some s => parseInt s | None => NaN end.

(** ** Positions *)

(** A [Vector3] of the host; the fields are the source's [x], [y], [z]. *)
Record Vector3 := mkVector3 { vx : Q; vy : Q; vz : Q }.

(** Block coordinates. *)
Abbreviation BlockPos := (Z * Z * Z)%type.

(** A block's [location], as the vector the script copies with a spread. *)
Definition toVector (p : BlockPos) : Vector3 :=
  let '(bx, by_, bz) := p in
  {| vx := inject_Z bx; vy := inject_Z by_; vz := inject_Z bz |}.

(** The block that contains a position ([Math.floor] of each coordinate);
    the host resolves [getBlock] and [setBlockType] this way. *)
Definition floorPos (v : Vector3) : BlockPos :=
  (Qfloor (vx v), Qfloor (vy v), Qfloor (vz v)).

(** [v.y += d] on a copy of [v]. *)
Definition add_y (v : Vector3) (d : Q) : Vector3 :=
  {| vx := vx v; vy := (vy v + d)%Q; vz := vz v |}.

(** Where [setUpArmorStand] puts the marker of a block: centred, one above
    the barrier, which is 99 above the block. *)
Definition markerPos (basePos : BlockPos) : Vector3 :=
  let pos := add_y (toVector basePos) 99 in
  {| vx := vx pos + (1 # 2); vy := vy pos + 1; vz := vz pos + (1 # 2) |}%Q.

(** The same point of space ([Q] has several fractions per number). *)
Definition same_point (u v : Vector3) : Prop :=
  (vx u == vx v)%Q /\ (vy u == vy v)%Q /\ (vz u == vz v)%Q.

(** ** The world of the host *)

Inductive DimensionId := Nether | Overworld | TheEnd.

Inductive GameMode := survival | creative | adventure | spectator.

#[global] Instance DimensionId_eq_dec : EqDecision DimensionId.
Proof. solve_decision. Defined.

#[global] Instance GameMode_eq_dec : EqDecision GameMode.
Proof. solve_decision. Defined.

Abbreviation EntityId := nat.

Record Entity := mkEntity {
  typeId : string;
  location : Vector3;
  nameTag : string;
  tags : list string;
  effects : gmap string (Z * bool)
}.

Record ItemStack := mkItemStack {
  itemTypeId : string;
  amount : Number
}.

(** A dimension: its blocks (a position without an entry holds air), its
    entities, and the item stacks spawned into it, oldest first.  Item
    entities carry no tag and are no armor stand, so neither the scan nor
    the protection guard can match one; they are kept apart. *)
Record Dimension := mkDimension {
  blocks : gmap BlockPos string;
  entities : gmap EntityId Entity;
  items : list (ItemStack * Vector3)
}.

(** The world: the three dimensions; the handle the next entity spawned
    with [spawnEntity] gets; [chat], the lines broadcast with
    [world.sendMessage], which every player receives, oldest first; and
    [inbox], the lines sent to one player with [player.sendMessage], each
    with the player's name. *)
Record World := mkWorld {
  nether : Dimension;
  overworld : Dimension;
  the_end : Dimension;
  nextId : EntityId;
  chat : list string;
  inbox : list (string * string)
}.

Definition getDimension (d : DimensionId) (w : World) : Dimension :=
  match d with
  | Nether => nether w
  | Overworld => overworld w
  | TheEnd => the_end w
  end.

Definition setDimension (d : DimensionId) (dm : Dimension) (w : World) : World :=
  match d with
  | Nether => mkWorld dm (overworld w) (the_end w) (nextId w) (chat w) (inbox w)
  | Overworld => mkWorld (nether w) dm (the_end w) (nextId w) (chat w) (inbox w)
  | TheEnd => mkWorld (nether w) (overworld w) dm (nextId w) (chat w) (inbox w)
  end.

Definition dimensionName (d : DimensionId) : string :=
  match d with
  | Nether => "minecraft:nether"
  | Overworld => "minecraft:overworld"
  | TheEnd => "minecraft:the_end"
  end.

Definition emptyDimension : Dimension := mkDimension ∅ ∅ [].

Definition emptyWorld : World :=
  mkWorld emptyDimension emptyDimension emptyDimension 0%nat [] [].

(** *** Pure readers and writers of the world *)

Definition blockAt (d : DimensionId) (p : BlockPos) (w : World) : string :=
  default "minecraft:air" (blocks (getDimension d w) !! p).

Definition entityAt (d : DimensionId) (id : EntityId) (w : World) : option Entity :=
  entities (getDimension d w) !! id.

Definition itemsOf (d : DimensionId) (w : World) : list (ItemStack * Vector3) :=
  items (getDimension d w).

Definition putBlock (d : DimensionId) (p : BlockPos) (ty : string) (w : World) : World :=
  let dm := getDimension d w in
  setDimension d (mkDimension (<[p := ty]> (blocks dm)) (entities dm) (items dm)) w.

Definition putEntity (d : DimensionId) (id : EntityId) (e : option Entity) (w : World) : World :=
  let dm := getDimension d w in
  setDimension d
    (mkDimension (blocks dm)
       (match e with Some e' => <[id := e']> (entities dm) | None => delete id (entities dm) end)
       (items dm)) w.

Definition putItem (d : DimensionId) (st : ItemStack) (p : Vector3) (w : World) : World :=
  let dm := getDimension d w in
  setDimension d (mkDimension (blocks dm) (entities dm) (items dm ++ [(st, p)])) w.

Definition putChat (msg : string) (w : World) : World :=
  mkWorld (nether w) (overworld w) (the_end w) (nextId w) (chat w ++ [msg]) (inbox w).

Definition putInbox (player msg : string) (w : World) : World :=
  mkWorld (nether w) (overworld w) (the_end w) (nextId w) (chat w)
    (inbox w ++ [(player, msg)]).

Definition bumpId (w : World) : World :=
  mkWorld (nether w) (overworld w) (the_end w) (S (nextId w)) (chat w) (inbox w).

(** ** Scripts: state and exceptions *)

(** A script either returns or throws; the world it has reached is kept
    in both cases, since an exception undoes nothing. *)
Inductive Outcome (A : Type) :=
  | Ok (a : A) (w : World)
  | Throw (e : string) (w : World).
Arguments Ok {A} a w.
Arguments Throw {A} e w.

Definition Script (A : Type) : Type := World -> Outcome A.

Definition ret {A} (a : A) : Script A := fun w => Ok a w.

Definition bind {A B} (m : Script A) (k : A -> Script B) : Script B :=
  fun w => match m w with
           | Ok a w' => k a w'
           | Throw e w' => Throw e w'
           end.

Definition throw {A} (e : string) : Script A := fun w => Throw e w.

(** [try { body } catch (e) { handler(e) }] *)
Definition try_catch {A} (body : Script A) (handler : string -> Script A) : Script A :=
  fun w => match body w with
           | Ok a w' => Ok a w'
           | Throw e w' => handler e w'
           end.

Notation "'let*' x := m 'in' k" := (bind m (fun x => k))
  (at level 10, x name, m at level 100, k at level 200).
Notation "m ;; k" := (bind m (fun _ => k))
  (at level 100, k at level 200, right associativity).

(** [xs.forEach(f)]: in order, and an exception ends the iteration. *)
Fixpoint forEach {A} (f : A -> Script unit) (xs : list A) : Script unit :=
  match xs with
  | [] => ret tt
  | x :: xs' => f x ;; forEach f xs'
  end.

(** The world a script leaves behind, however it ended. *)
Definition worldOf {A} (o : Outcome A) : World :=
  match o with Ok _ w => w | Throw _ w => w end.

(** *** The host's API *)

(** The text of the error raised by reading a property of [undefined] or
    of an entity that is gone. *)
Definition TypeError : string := "TypeError".
Definition InvalidEntityError : string := "InvalidEntityError".

(** [dimension.getBlock(pos).typeId], at a position where the host returns
    a block: in a loaded chunk, within the height of the world. *)
Definition getBlockTypeId (d : DimensionId) (pos : Vector3) : Script string :=
  fun w => Ok (blockAt d (floorPos pos) w) w.

(** [dimension.setBlockType(pos, ty)], at such a position. *)
Definition setBlockType (d : DimensionId) (pos : Vector3) (ty : string) : Script unit :=
  fun w => Ok tt (putBlock d (floorPos pos) ty w).

(** [dimension.spawnEntity(ty, pos)]: a new entity without label or tags. *)
Definition spawnEntity (d : DimensionId) (ty : string) (pos : Vector3) : Script EntityId :=
  fun w =>
    let id := nextId w in
    Ok id (putEntity d id (Some (mkEntity ty pos "" [] ∅)) (bumpId w)).

(** Reading a property of an entity. *)
Definition entityGet {A} (d : DimensionId) (id : EntityId) (f : Entity -> A) : Script A :=
  fun w => match entityAt d id w with
           | Some e => Ok (f e) w
           | None => Throw InvalidEntityError w
           end.

(** Writing to an entity. *)
Definition entitySet (d : DimensionId) (id : EntityId) (f : Entity -> Entity) : Script unit :=
  fun w => match entityAt d id w with
           | Some e => Ok tt (putEntity d id (Some (f e)) w)
           | None => Throw InvalidEntityError w
           end.

Definition with_nameTag (s : string) (e : Entity) : Entity :=
  mkEntity (typeId e) (location e) s (tags e) (effects e).

Definition with_tag (t : string) (e : Entity) : Entity :=
  mkEntity (typeId e) (location e) (nameTag e)
    (if bool_decide (t ∈ tags e) then tags e else tags e ++ [t]) (effects e).

Definition with_effect (name : string) (duration : Z) (showParticles : bool)
    (e : Entity) : Entity :=
  mkEntity (typeId e) (location e) (nameTag e) (tags e)
    (<[name := (duration, showParticles)]> (effects e)).

(** [entity.hasTag(t)] *)
Definition hasTag (t : string) (e : Entity) : bool := bool_decide (t ∈ tags e).

(** [entity.kill()]: the entity leaves the world at once, so that later
    scans do not see it. *)
Definition kill (d : DimensionId) (id : EntityId) : Script unit :=
  fun w => match entityAt d id w with
           | Some _ => Ok tt (putEntity d id None w)
           | None => Throw InvalidEntityError w
           end.

(** [dimension.getEntities()], with the handle of each entity. *)
Definition getEntities (d : DimensionId) : Script (list (EntityId * Entity)) :=
  fun w => Ok (map_to_list (entities (getDimension d w))) w.

(** [dimension.spawnItem(stack, pos)]: a new item entity, recorded as its
    stack and position; the script keeps no handle of it. *)
Definition spawnItem (d : DimensionId) (st : ItemStack) (pos : Vector3) : Script unit :=
  fun w => Ok tt (putItem d st pos w).

(** [world.sendMessage(msg)]: a broadcast to every player, recorded once. *)
Definition sendMessage (msg : string) : Script unit :=
  fun w => Ok tt (putChat msg w).

(** A block handle: the dimension it lies in and its integer [location]. *)
Record Block := mkBlock {
  dimension : DimensionId;
  blockLocation : BlockPos
}.

(** A player, as the handlers read one; [getBlockFromViewDirection] is
    [None] when the view hits no block and the host returns [undefined]. *)
Record Player := mkPlayer {
  playerName : string;
  getGameMode : GameMode;
  isSneaking : bool;
  getBlockFromViewDirection : option Block
}.

(** [player.sendMessage(msg)]: a line for this player alone. *)
Definition playerSendMessage (p : Player) (msg : string) : Script unit :=
  fun w => Ok tt (putInbox (playerName p) msg w).

(** ** The script *)

(** [CONSTANTS]; [DIMENSIONS] holds the dimensions that
    [world.getDimension] returns for the three names of the source, in the
    source's order ([dimensionName] gives the names back). *)
Definition DIMENSIONS : list DimensionId := [Nether; Overworld; TheEnd].
Definition DEFAULT_TICKS : string := "200".
Definition DEFAULT_ITEM_ID : string := "minecraft:diamond".
Definition DEFAULT_ITEM_COUNT : string := "1".
Definition BARRIER_OFFSET : Q := 99.
Definition ITEM_SPAWN_OFFSET : Q := 98.

(** The chat lines of the script. *)
Definition MSG_INVALID_INPUT : string := "§4入力値が不正です".
Definition MSG_FORM_FAILED : string := "§4フォームの表示に失敗しました: ".
Definition MSG_INVALID_GENERATOR : string := "§4無効なジェネレーターが削除されました。".
Definition MSG_BLOCK_MISSING : string :=
  "§gジェネレーターブロックが存在しないため削除されました".
Definition MSG_INVALID_ITEM : string :=
  "§4無効なアイテムの生成が試みられたため、ジェネレーターが削除されました".
Definition MSG_CREATIVE_ONLY : string :=
  "§gジェネレーターは§aクリエイティブモード§gでのみ破壊できます。".

(** [class GeneratorSettings]; a form value that is missing is
    [undefined], here [None]. *)
Record GeneratorSettings := mkSettings {
  ticks : Number;
  itemId : option string;
  itemCount : Number
}.

(** The constructor. *)
Definition newGeneratorSettings (ticks_ itemId_ itemCount_ : option string)
    : GeneratorSettings :=
  {| ticks := parseIntU ticks_; itemId := itemId_; itemCount := parseIntU itemCount_ |}.

Definition fromFormValues (formValues : list string) : GeneratorSettings :=
  newGeneratorSettings (formValues !! 0%nat) (formValues !! 1%nat) (formValues !! 2%nat).

Definition validate (s : GeneratorSettings) : bool :=
  negb (isNaN (ticks s)) &&
  match itemId s with
  | Some i => startsWith i "minecraft:"
  | None => false
  end &&
  negb (isNaN (itemCount s)).

(** A value inside a template literal. *)
Definition show (v : option string) : string :=
  match v with Some s => s | None => "undefined" end.

(** The tag [setUpArmorStand] attaches. *)
Definition genTag (settings : GeneratorSettings) (basePos : BlockPos) : string :=
  let '(bx, by_, bz) := basePos in
  "gen:" +:+ String_ (ticks settings) +:+ "," +:+ show (itemId settings) +:+ ","
    +:+ String_ (itemCount settings) +:+ "," +:+ String_ (Int bx) +:+ ","
    +:+ String_ (Int by_) +:+ "," +:+ String_ (Int bz).

Definition setUpArmorStand (block : Block) (settings : GeneratorSettings) : Script unit :=
  let dimension := dimension block in
  let pos := toVector (blockLocation block) in
  let basePos := blockLocation block in
  let pos := add_y pos BARRIER_OFFSET in
  setBlockType dimension pos "minecraft:barrier" ;;
  let pos := {| vx := vx pos + (1 # 2); vy := vy pos + 1; vz := vz pos + (1 # 2) |}%Q in
  let* armorStand := spawnEntity dimension "minecraft:armor_stand" pos in
  entitySet dimension armorStand (with_nameTag (String_ (ticks settings))) ;;
  entitySet dimension armorStand (with_tag (genTag settings basePos)).

(** The form's answer; [formValues] is [undefined] when the form was
    closed without being submitted. *)
Record ModalFormResponse := mkResponse {
  formValues : option (list string)
}.

(** [showSettingModal] from the point where the form has been answered. *)
Definition showSettingModal (player : Player) (block : Block)
    (formData : ModalFormResponse) : Script unit :=
  try_catch
    (let* values :=
       match formValues formData with
       | Some vs => ret vs
       | None => throw TypeError
       end in
     let settings := fromFormValues values in
     if negb (validate settings) then
       playerSendMessage player MSG_INVALID_INPUT
     else
       setUpArmorStand block settings)
    (fun error => playerSendMessage player (MSG_FORM_FAILED +:+ error)).

(** The fields of a tag, as [processEntity] splits it. *)
Definition tagValues (tag : string) : list string :=
  split "," (replace "gen:" "" tag).

(** The configuration [processEntity] reads off a tag: the interval, the
    item and the count. *)
Definition decodeTag (tag : string) : Number * option string * Number :=
  let values := tagValues tag in
  (parseIntU (values !! 0%nat), values !! 1%nat, parseIntU (values !! 2%nat)).

(** [Number.MAX_SAFE_INTEGER]: up to it a double holds every integer. *)
Definition MAX_SAFE_INTEGER : Z := 2 ^ 53 - 1.

(** The block [processEntity] probes: [BARRIER_OFFSET + 1] below the marker. *)
Definition probedBlock (e : Entity) : BlockPos :=
  floorPos (add_y (location e) (- (BARRIER_OFFSET + 1))).

(** The block it clears when the probe finds air: [BARRIER_OFFSET] above
    the probed one. *)
Definition clearedBlock (e : Entity) : BlockPos :=
  floorPos (add_y (add_y (location e) (- (BARRIER_OFFSET + 1))) BARRIER_OFFSET).

(** The marker as the countdown of one step reads it: made invisible and,
    when it has no [count_initialized] tag yet, given its label and the tag. *)
Definition primed (values : list string) (e : Entity) : Entity :=
  let e1 := with_effect "invisibility" 20 false e in
  if hasTag "count_initialized" e1 then e1
  else with_tag "count_initialized" (with_nameTag (show (values !! 0%nat)) e1).

Section ItemSystem.

(** Whether the host builds and places a stack of the given item type
    and amount; [new ItemStack] throws when it does not. *)
Variable itemValid : string -> Number -> bool.

Definition newItemStack (itemType : option string) (amount_ : Number) : Script ItemStack :=
  match itemType with
  | Some ty =>
      if itemValid ty amount_ then ret (mkItemStack ty amount_)
      else throw "Error: invalid item"
  | None => throw TypeError
  end.

Definition removeInvalidGenerator (dimension : DimensionId) (pos : Vector3)
    (armorStand : EntityId) : Script unit :=
  let pos := add_y pos BARRIER_OFFSET in
  setBlockType dimension pos "minecraft:air" ;;
  kill dimension armorStand ;;
  sendMessage MSG_INVALID_GENERATOR.

Definition processEntity (entity : EntityId) (dimension : DimensionId)
    (tag : string) : Script unit :=
  let values := tagValues tag in
  entitySet dimension entity (with_effect "invisibility" 20 false) ;;
  let* loc := entityGet dimension entity location in
  let entityPos := add_y loc (- (BARRIER_OFFSET + 1)) in
  let* below := getBlockTypeId dimension entityPos in
  if String.eqb below "minecraft:air" then
    let entityPos := add_y entityPos BARRIER_OFFSET in
    setBlockType dimension entityPos "minecraft:air" ;;
    kill dimension entity ;;
    sendMessage MSG_BLOCK_MISSING
  else
    let* initialized := entityGet dimension entity (hasTag "count_initialized") in
    (if negb initialized then
       entitySet dimension entity (with_nameTag (show (values !! 0%nat))) ;;
       entitySet dimension entity (with_tag "count_initialized")
     else ret tt) ;;
    let* label := entityGet dimension entity nameTag in
    match parseInt label with
    | Int count =>
        let count := count - 1 in
        if count <=? 0 then
          let count := parseIntU (values !! 0%nat) in
          let* loc := entityGet dimension entity location in
          let pos := add_y loc (- ITEM_SPAWN_OFFSET) in
          let* emitted :=
            try_catch
              (let* itemStack :=
                 newItemStack (values !! 1%nat) (parseIntU (values !! 2%nat)) in
               spawnItem dimension itemStack pos ;;
               ret true)
              (fun e =>
                 let* loc := entityGet dimension entity location in
                 removeInvalidGenerator dimension loc entity ;;
                 sendMessage MSG_INVALID_ITEM ;;
                 ret false) in
          if emitted then entitySet dimension entity (with_nameTag (String_ count))
          else ret tt
        else entitySet dimension entity (with_nameTag (String_ (Int count)))
    | NaN => entitySet dimension entity (with_nameTag (show (values !! 0%nat)))
    end.

(** Whether the host takes the item a tag describes. *)
Definition itemAccepted (values : list string) : bool :=
  match values !! 1%nat with
  | Some ty => itemValid ty (parseIntU (values !! 2%nat))
  | None => false
  end.

(** The first tag of an entity that begins with [gen:], if any. *)
Definition genTagOf (e : Entity) : option string :=
  List.find (fun tag => startsWith tag "gen:") (tags e).

(** The scan of one dimension. *)
Definition scanDimension (d : DimensionId) (w : World)
    : list (EntityId * DimensionId * string) :=
  omap (fun '(id, e) => (fun tag => (id, d, tag)) <$> genTagOf e)
    (map_to_list (entities (getDimension d w))).

(** The callback of [system.runInterval]: one step. *)
Definition tick : Script unit :=
  fun w =>
    let entitiesWithGenTag := flat_map (fun d => scanDimension d w) DIMENSIONS in
    forEach (fun '(entity, dimension, tag) => processEntity entity dimension tag)
      entitiesWithGenTag w.

(** No entity of the world carries a generator tag. *)
Definition noGenerators (w : World) : Prop :=
  forall d id e, entityAt d id w = Some e -> genTagOf e = None.

(** The marker [m] of dimension [d] is the world's only generator, and
    [tag] is the tag the scan finds on it. *)
Definition soleGenerator (d : DimensionId) (m : EntityId) (tag : string)
    (w : World) : Prop :=
  (exists e, entityAt d m w = Some e /\ genTagOf e = Some tag) /\
  forall d' id e', (d', id) <> (d, m) -> entityAt d' id w = Some e' ->
                   genTagOf e' = None.

(** A generator on [basePos] whose countdown reads [c] at its next step:
    the marker stands where placement put it, the configured block is
    not air, and no other entity is a generator. *)
Definition running (d : DimensionId) (m : EntityId) (tag : string)
    (basePos : BlockPos) (c : Z) (w : World) : Prop :=
  (exists e, entityAt d m w = Some e /\ location e = markerPos basePos /\
             genTagOf e = Some tag /\
             parseInt (nameTag (primed (tagValues tag) e)) = Int c) /\
  blockAt d basePos w <> "minecraft:air" /\
  forall d' id e', (d', id) <> (d, m) -> entityAt d' id w = Some e' ->
                   genTagOf e' = None.

(** [n] steps in a row; a step that throws ends that step only. *)
Fixpoint ticks_run (n : nat) (w : World) : World :=
  match n with
  | O => w
  | S n' => ticks_run n' (worldOf (tick w))
  end.

End ItemSystem.

(** ** A host and a world for the scenarios *)

(** An item system that knows a few items of the game and takes stacks of
    1 to 255 of them. *)
Definition vanillaItems (ty : string) (n : Number) : bool :=
  bool_decide (ty ∈ ["minecraft:diamond"; "minecraft:iron_ingot"; "minecraft:stone"]) &&
  match n with
  | Int z => (1 <=? z) && (z <=? 255)
  | NaN => false
  end.

(** The overworld with a block of stone at (0, 64, 0) and nothing else. *)
Definition stoneWorld : World :=
  putBlock Overworld (0, 64, 0) "minecraft:stone" emptyWorld.

Definition stoneBlock : Block := mkBlock Overworld (0, 64, 0).

(** A generator of interval 5 for one diamond, placed on the stone block:
    its settings, its tag, its marker and the world right after placement. *)
Definition fiveSettings : GeneratorSettings :=
  mkSettings (Int 5) (Some "minecraft:diamond") (Int 1).

Definition fiveTag : string := genTag fiveSettings (0, 64, 0).

Definition fiveMarker : Entity :=
  mkEntity "minecraft:armor_stand" (markerPos (0, 64, 0)) "5" [fiveTag] ∅.

Definition fiveWorld : World :=
  worldOf (setUpArmorStand stoneBlock fiveSettings stoneWorld).

(** The [playerBreakBlock] handler; it returns the event's [cancel]. *)
Record PlayerBreakBlockEvent := mkBreak {
  breakPlayer : Player;
  breakBlock : Block
}.

Definition isGeneratorMarker (armorStandPos : Vector3) (e : Entity) : bool :=
  String.eqb (typeId e) "minecraft:armor_stand" &&
  existsb (fun tag => startsWith tag "gen:") (tags e) &&
  ((Qfloor (vx (location e)) =? Qfloor (vx armorStandPos)) &&
   (Qfloor (vy (location e)) =? Qfloor (vy armorStandPos)) &&
   (Qfloor (vz (location e)) =? Qfloor (vz armorStandPos))).

Definition onPlayerBreakBlock (ev : PlayerBreakBlockEvent) : Script bool :=
  let player := breakPlayer ev in
  let block := breakBlock ev in
  let pos := toVector (blockLocation block) in
  let dimension := dimension block in
  let barrierPos := add_y pos BARRIER_OFFSET in
  let* barrierBlock := getBlockTypeId dimension barrierPos in
  if String.eqb barrierBlock "minecraft:barrier" then
    let armorStandPos := add_y barrierPos 1 in
    let* entities := getEntities dimension in
    let isGenerator := existsb (fun '(_, e) => isGeneratorMarker armorStandPos e) entities in
    if isGenerator && negb (bool_decide (getGameMode player = creative)) then
      playerSendMessage player MSG_CREATIVE_ONLY ;;
      ret true
    else ret false
  else ret false.

(** The [itemUse] handler; it returns the block the settings form was
    opened for, if it opened one. *)
Record ItemUseEvent := mkItemUse {
  source : Player;
  itemStack : ItemStack
}.

Definition onItemUse (ev : ItemUseEvent) : Script (option Block) :=
  let player := source ev in
  let item := itemStack ev in
  let* block :=
    match getBlockFromViewDirection player with
    | Some b => ret b
    | None => throw TypeError
    end in
  if String.eqb (itemTypeId item) "minecraft:trial_key" && negb (isSneaking player) then
    ret (Some block)
  else ret None.

(** ** Notions for the properties of the whole script *)

(** The list the step builds before it processes anything: one entry per
    entity that carries a [gen:] tag, dimension by dimension. *)
Definition snapshot (w : World) : list (EntityId * DimensionId * string) :=
  flat_map (fun d => scanDimension d w) DIMENSIONS.

(** The entity an entry of the snapshot stands for. *)
Definition entryKey (x : EntityId * DimensionId * string) : DimensionId * EntityId :=
  let '(id, d, _) := x in (d, id).

(** [w'] differs from [w] at most in dimension [d], and there not in any
    entity other than [id]. *)
Definition sameElsewhere (d : DimensionId) (id : EntityId) (w w' : World) : Prop :=
  (forall d', d' <> d -> getDimension d' w' = getDimension d' w) /\
  (forall id', id' <> id -> entityAt d id' w' = entityAt d id' w).


(** Text that can follow a number without changing what [parseInt] reads:
    nothing, or text that begins with a character that is no decimal digit
    and neither [x] nor [X]. *)
Definition trailing (rest : string) : bool :=
  match rest with
  | EmptyString => true
  | String c _ =>
      negb (is_digit c) && negb (Ascii.eqb c "x") && negb (Ascii.eqb c "X")
  end.

(** * Properties *)

(** ** Strings and numbers *)

Example parseInt_examples :
  parseInt "200" = Int 200 /\ parseInt "  -17abc" = Int (-17) /\
  parseInt "0x1F" = Int 31 /\ parseInt "abc" = NaN /\ parseInt "" = NaN /\
  parseInt "12.9" = Int 12 /\ parseIntU None = NaN /\
  String_ (Int (-5)) = "-5" /\ String_ (Int 0) = "0" /\ String_ (Int 1200) = "1200".
Proof. repeat split; vm_compute; reflexivity. Qed.

(** The no-break space, the ideographic space and U+FEFF are trimmed like
    a space; U+200B, the zero width space, is no white space. *)
Example parseInt_white_space :
  parseInt (String "194" (String "160" "5")) = Int 5 /\
  parseInt (String "227" (String "128" (String "128" "12"))) = Int 12 /\
  parseInt (String "239" (String "187" (String "191" " 7"))) = Int 7 /\
  parseInt (String "226" (String "128" (String "139" "5"))) = NaN.
Proof. repeat split; vm_compute; reflexivity. Qed.

Example split_examples :
  split "," "5,minecraft:diamond,1,0,64,0"
  = ["5"; "minecraft:diamond"; "1"; "0"; "64"; "0"] /\
  split "," "" = [""] /\ split "," "a,,b" = ["a"; ""; "b"] /\
  replace "gen:" "" "gen:5,a" = "5,a" /\
  startsWith "minecraft:stone" "minecraft:" = true /\
  startsWith "mine" "minecraft:" = false.
Proof. repeat split; vm_compute; reflexivity. Qed.

Lemma strip_prefix_app (p s : string) : strip_prefix p (p +:+ s) = Some s.
Proof.
  induction p as [|a p IH]; simpl; [reflexivity|].
  rewrite Ascii.eqb_refl. exact IH.
Qed.

Lemma replace_prefix (p r s : string) : replace p r (p +:+ s) = r +:+ s.
Proof.
  assert (forall t, replace p r t =
            match strip_prefix p t with
            | Some rest => r +:+ rest
            | None => match t with
                      | EmptyString => EmptyString
                      | String c t' => String c (replace p r t')
                      end
            end) as Hunfold by (intros [|c t]; reflexivity).
  rewrite Hunfold, strip_prefix_app. reflexivity.
Qed.

Lemma split_nonempty (sep : ascii) (s : string) : split sep s <> [].
Proof.
  destruct s as [|c s]; simpl; [discriminate|].
  destruct (Ascii.eqb c sep); [discriminate|].
  destruct (split sep s); discriminate.
Qed.

Lemma split_field (sep : ascii) (s r : string) :
  lacks sep s = true ->
  split sep (s +:+ String sep r) = s :: split sep r.
Proof.
  induction s as [|c s IH]; simpl; intros H.
  - rewrite Ascii.eqb_refl. reflexivity.
  - apply andb_prop in H as [Hc Hs].
    apply negb_true_iff in Hc. rewrite Hc, (IH Hs). reflexivity.
Qed.

Lemma split_last (sep : ascii) (s : string) :
  lacks sep s = true -> split sep s = [s].
Proof.
  induction s as [|c s IH]; simpl; intros H; [reflexivity|].
  apply andb_prop in H as [Hc Hs].
  apply negb_true_iff in Hc. rewrite Hc, (IH Hs). reflexivity.
Qed.

Lemma lacks_app (c : ascii) (s r : string) :
  lacks c (s +:+ r) = lacks c s && lacks c r.
Proof.
  induction s as [|a s IH]; simpl; [reflexivity|].
  rewrite IH. apply andb_assoc.
Qed.

Lemma is_digit_pretty_N_char (d : N) : is_digit (pretty_N_char d) = true.
Proof.
  unfold pretty_N_char.
  repeat (match goal with |- context [match ?x with _ => _ end] => destruct x end;
          try reflexivity).
Qed.

Lemma digit_value_pretty_N_char (d : N) :
  (d < 10)%N -> digit_value 10 (pretty_N_char d) = Some (Z.of_N d).
Proof.
  intros H.
  assert (d = 0 \/ d = 1 \/ d = 2 \/ d = 3 \/ d = 4 \/ d = 5 \/ d = 6 \/
          d = 7 \/ d = 8 \/ d = 9)%N as Hd by lia.
  repeat (destruct Hd as [-> | Hd]; [reflexivity|]). subst d. reflexivity.
Qed.

Lemma all_digits_pretty_N_go (x : N) (s : string) :
  all_digits s = true -> all_digits (pretty_N_go x s) = true.
Proof.
  revert s. induction (N.lt_wf_0 x) as [x _ IH]. intros s Hs.
  destruct (decide (x = 0)%N) as [-> | Hx]; [exact Hs|].
  rewrite pretty_N_go_step by lia.
  apply IH; [apply N.div_lt; lia|].
  simpl. rewrite is_digit_pretty_N_char. exact Hs.
Qed.

(** Reading back the digits [pretty_N_go] writes in front of [s]. *)
Lemma parse_digits_pretty_N_go (x : N) :
  (0 < x)%N ->
  exists k : Z, 0 <= k /\ forall acc s,
    parse_digits 10 acc (pretty_N_go x s)
    = parse_digits 10 (Some (default 0 acc * 10 ^ k + Z.of_N x)) s.
Proof.
  induction (N.lt_wf_0 x) as [x _ IH]. intros Hx.
  destruct (decide (x `div` 10 = 0)%N) as [Hq | Hq].
  - exists 1. split; [lia|]. intros acc s.
    rewrite pretty_N_go_step by exact Hx. rewrite Hq, pretty_N_go_0.
    assert (x < 10)%N as Hlt by (apply N.div_small_iff in Hq; lia).
    rewrite N.mod_small by exact Hlt. simpl parse_digits.
    rewrite digit_value_pretty_N_char by exact Hlt.
    rewrite Z.pow_1_r. reflexivity.
  - destruct (IH (x `div` 10)%N) as (k & Hk & Hgo);
      [apply N.div_lt; lia|apply N.neq_0_lt_0, Hq|].
    exists (k + 1). split; [lia|]. intros acc s.
    rewrite pretty_N_go_step by exact Hx. rewrite Hgo. simpl parse_digits.
    rewrite digit_value_pretty_N_char by (apply N.mod_lt; lia).
    f_equal. f_equal. simpl default.
    rewrite Z.pow_add_r by lia.
    pose proof (N.div_mod x 10 ltac:(lia)) as Hdm.
    assert (Z.of_N x = 10 * Z.of_N (x `div` 10) + Z.of_N (x `mod` 10)) by lia.
    lia.
Qed.

Lemma pretty_positive_unfold (p : positive) :
  pretty (Z.pos p) = pretty_N_go (N.pos p) "".
Proof. reflexivity. Qed.

Lemma all_digits_pretty_pos (p : positive) : all_digits (pretty (Z.pos p)) = true.
Proof. rewrite pretty_positive_unfold. apply all_digits_pretty_N_go. reflexivity. Qed.

Lemma is_digit_cases (c : ascii) :
  is_digit c = true ->
  is_space c = false /\ c <> "-"%char /\ c <> "+"%char /\ c <> "x"%char /\
  c <> "X"%char /\ c <> ","%char.
Proof.
  destruct c as [[] [] [] [] [] [] [] []]; intros H; try discriminate H;
    repeat split; try reflexivity; discriminate.
Qed.

(** A character that opens a number is no white space, neither alone nor
    as the first byte of a longer character. *)
Lemma skip_space_head (c : ascii) (s : string) :
  is_digit c = true \/ c = "-"%char -> skip_space (String c s) = String c s.
Proof.
  intros H.
  assert (is_space c = false /\ (forall b, is_space2 c b = false) /\
          forall b d, is_space3 c b d = false) as (H1 & H2 & H3).
  { destruct H as [H | ->]; [|repeat split].
    destruct c as [[] [] [] [] [] [] [] []]; try discriminate H; repeat split. }
  cbn [skip_space]. rewrite H1.
  destruct s as [|b [|d s]]; rewrite ?H2, ?H3; reflexivity.
Qed.

(** On a string of digits [parseInt] reads its decimal digits. *)
Lemma parseInt_all_digits (s : string) :
  all_digits s = true ->
  parseInt s = match parse_digits 10 None s with Some v => Int v | None => NaN end.
Proof.
  intros H. unfold parseInt.
  destruct s as [|c s]; [reflexivity|].
  simpl in H. apply andb_prop in H as [Hc Hs].
  destruct (is_digit_cases c Hc) as (Hsp & Hm & Hp & _).
  rewrite skip_space_head by (left; exact Hc).
  assert (strip_sign (String c s) = (false, String c s)) as ->.
  { unfold strip_sign.
    destruct c as [[] [] [] [] [] [] [] []]; try reflexivity; congruence. }
  assert (strip_radix (String c s) = (10, String c s)) as ->.
  { destruct s as [|c' s'].
    - unfold strip_radix.
      destruct c as [[] [] [] [] [] [] [] []]; reflexivity.
    - simpl in Hs. apply andb_prop in Hs as [Hc' _].
      destruct (is_digit_cases c' Hc') as (_ & _ & _ & Hx & HX & _).
      unfold strip_radix.
      destruct c as [[] [] [] [] [] [] [] []]; try reflexivity;
        destruct c' as [[] [] [] [] [] [] [] []]; try reflexivity; congruence. }
  reflexivity.
Qed.

Lemma parseInt_pretty_pos (p : positive) : parseInt (pretty (Z.pos p)) = Int (Z.pos p).
Proof.
  rewrite parseInt_all_digits by apply all_digits_pretty_pos.
  rewrite pretty_positive_unfold.
  destruct (parse_digits_pretty_N_go (N.pos p)) as (k & _ & Hgo); [lia|].
  rewrite Hgo. simpl. reflexivity.
Qed.

(** [parseInt(String(n))] is [n] for every integer [n]. *)
Lemma parseInt_String (z : Z) : parseInt (String_ (Int z)) = Int z.
Proof.
  destruct z as [|p|p].
  - reflexivity.
  - apply parseInt_pretty_pos.
  - change (String_ (Int (Z.neg p))) with (String "-" (pretty (Z.pos p))).
    pose proof (parseInt_pretty_pos p) as H.
    rewrite parseInt_all_digits in H by apply all_digits_pretty_pos.
    unfold parseInt. rewrite skip_space_head by (right; reflexivity).
    simpl strip_sign.
    pose proof (all_digits_pretty_pos p) as Hd.
    destruct (pretty (Z.pos p)) as [|c s] eqn:E; [discriminate H|].
    assert (strip_radix (String c s) = (10, String c s)) as ->.
    { simpl in Hd. apply andb_prop in Hd as [Hc Hs].
      destruct s as [|c' s'].
      - unfold strip_radix.
        destruct c as [[] [] [] [] [] [] [] []]; reflexivity.
      - simpl in Hs. apply andb_prop in Hs as [Hc' _].
        destruct (is_digit_cases c' Hc') as (_ & _ & _ & Hx & HX & _).
        unfold strip_radix.
        destruct c as [[] [] [] [] [] [] [] []]; try reflexivity;
          destruct c' as [[] [] [] [] [] [] [] []]; try reflexivity; congruence. }
    destruct (parse_digits 10 None (String c s)); [|discriminate H].
    injection H as ->. reflexivity.
Qed.

Lemma lacks_comma_all_digits (s : string) :
  all_digits s = true -> lacks "," s = true.
Proof.
  induction s as [|c s IH]; simpl; intros H; [reflexivity|].
  apply andb_prop in H as [Hc Hs]. rewrite (IH Hs).
  destruct (is_digit_cases c Hc) as (_ & _ & _ & _ & _ & Hcomma).
  apply Ascii.eqb_neq in Hcomma. rewrite Hcomma. reflexivity.
Qed.

(** The decimal rendering of an integer holds no comma. *)
Lemma lacks_comma_String (z : Z) : lacks "," (String_ (Int z)) = true.
Proof.
  destruct z as [|p|p].
  - reflexivity.
  - apply lacks_comma_all_digits, all_digits_pretty_pos.
  - change (String_ (Int (Z.neg p))) with (String "-" (pretty (Z.pos p))).
    simpl. apply lacks_comma_all_digits, all_digits_pretty_pos.
Qed.

(** ** The world's readers after its writers *)

Lemma getDimension_setDimension (d d' : DimensionId) (dm : Dimension) (w : World) :
  getDimension d' (setDimension d dm w) = if decide (d = d') then dm else getDimension d' w.
Proof. destruct d, d'; reflexivity. Qed.

Lemma entityAt_putEntity (d d' : DimensionId) (id id' : EntityId) (o : option Entity) (w : World) :
  entityAt d' id' (putEntity d id o w)
  = if decide (d = d' /\ id = id') then o else entityAt d' id' w.
Proof.
  unfold entityAt, putEntity. rewrite getDimension_setDimension.
  destruct (decide (d = d')) as [<- | Hd]; simpl.
  - destruct (decide (id = id')) as [<- | Hid].
    + rewrite decide_True by done.
      destruct o; [apply lookup_insert_eq | apply lookup_delete_eq].
    + rewrite decide_False by (intros [_ ?]; done).
      destruct o; [apply lookup_insert_ne | apply lookup_delete_ne]; done.
  - rewrite decide_False by (intros [? _]; done). reflexivity.
Qed.

Lemma entityAt_putEntity_eq (d : DimensionId) (id : EntityId) (o : option Entity) (w : World) :
  entityAt d id (putEntity d id o w) = o.
Proof. rewrite entityAt_putEntity, decide_True; done. Qed.

Lemma blockAt_putEntity (d d' : DimensionId) (id : EntityId) (o : option Entity) p (w : World) :
  blockAt d' p (putEntity d id o w) = blockAt d' p w.
Proof.
  unfold blockAt, putEntity. rewrite getDimension_setDimension.
  destruct (decide (d = d')) as [<- | Hd]; reflexivity.
Qed.

Lemma itemsOf_putEntity (d d' : DimensionId) (id : EntityId) (o : option Entity) (w : World) :
  itemsOf d' (putEntity d id o w) = itemsOf d' w.
Proof.
  unfold itemsOf, putEntity. rewrite getDimension_setDimension.
  destruct (decide (d = d')) as [<- | Hd]; reflexivity.
Qed.

Lemma chat_putEntity d id o w : chat (putEntity d id o w) = chat w.
Proof. destruct d; reflexivity. Qed.
Lemma inbox_putEntity d id o w : inbox (putEntity d id o w) = inbox w.
Proof. destruct d; reflexivity. Qed.
Lemma nextId_putEntity d id o w : nextId (putEntity d id o w) = nextId w.
Proof. destruct d; reflexivity. Qed.

Lemma blockAt_putBlock (d d' : DimensionId) (p p' : BlockPos) (ty : string) (w : World) :
  blockAt d' p' (putBlock d p ty w)
  = if decide (d = d' /\ p = p') then ty else blockAt d' p' w.
Proof.
  unfold blockAt, putBlock. rewrite getDimension_setDimension.
  destruct (decide (d = d')) as [<- | Hd]; simpl.
  - destruct (decide (p = p')) as [<- | Hp].
    + rewrite decide_True by done. rewrite lookup_insert_eq. reflexivity.
    + rewrite decide_False by (intros [_ ?]; done).
      rewrite lookup_insert_ne by done. reflexivity.
  - rewrite decide_False by (intros [? _]; done). reflexivity.
Qed.

Lemma entityAt_putBlock (d d' : DimensionId) p ty id (w : World) :
  entityAt d' id (putBlock d p ty w) = entityAt d' id w.
Proof.
  unfold entityAt, putBlock. rewrite getDimension_setDimension.
  destruct (decide (d = d')) as [<- | Hd]; reflexivity.
Qed.

Lemma itemsOf_putBlock (d d' : DimensionId) p ty (w : World) :
  itemsOf d' (putBlock d p ty w) = itemsOf d' w.
Proof.
  unfold itemsOf, putBlock. rewrite getDimension_setDimension.
  destruct (decide (d = d')) as [<- | Hd]; reflexivity.
Qed.

Lemma chat_putBlock d p ty w : chat (putBlock d p ty w) = chat w.
Proof. destruct d; reflexivity. Qed.
Lemma inbox_putBlock d p ty w : inbox (putBlock d p ty w) = inbox w.
Proof. destruct d; reflexivity. Qed.
Lemma nextId_putBlock d p ty w : nextId (putBlock d p ty w) = nextId w.
Proof. destruct d; reflexivity. Qed.

Lemma itemsOf_putItem (d d' : DimensionId) st p (w : World) :
  itemsOf d' (putItem d st p w)
  = if decide (d = d') then itemsOf d' w ++ [(st, p)] else itemsOf d' w.
Proof.
  unfold itemsOf, putItem. rewrite getDimension_setDimension.
  destruct (decide (d = d')) as [<- | Hd]; reflexivity.
Qed.

Lemma entityAt_putItem (d d' : DimensionId) st p id (w : World) :
  entityAt d' id (putItem d st p w) = entityAt d' id w.
Proof.
  unfold entityAt, putItem. rewrite getDimension_setDimension.
  destruct (decide (d = d')) as [<- | Hd]; reflexivity.
Qed.

Lemma blockAt_putItem (d d' : DimensionId) st p q (w : World) :
  blockAt d' q (putItem d st p w) = blockAt d' q w.
Proof.
  unfold blockAt, putItem. rewrite getDimension_setDimension.
  destruct (decide (d = d')) as [<- | Hd]; reflexivity.
Qed.

Lemma chat_putItem d st p w : chat (putItem d st p w) = chat w.
Proof. destruct d; reflexivity. Qed.
Lemma inbox_putItem d st p w : inbox (putItem d st p w) = inbox w.
Proof. destruct d; reflexivity. Qed.
Lemma nextId_putItem d st p w : nextId (putItem d st p w) = nextId w.
Proof. destruct d; reflexivity. Qed.

Lemma getDimension_putChat d msg w : getDimension d (putChat msg w) = getDimension d w.
Proof. destruct d; reflexivity. Qed.
Lemma getDimension_putInbox d p msg w : getDimension d (putInbox p msg w) = getDimension d w.
Proof. destruct d; reflexivity. Qed.
Lemma getDimension_bumpId d w : getDimension d (bumpId w) = getDimension d w.
Proof. destruct d; reflexivity. Qed.

Lemma entityAt_putChat d id msg w : entityAt d id (putChat msg w) = entityAt d id w.
Proof. unfold entityAt. rewrite getDimension_putChat. reflexivity. Qed.
Lemma blockAt_putChat d p msg w : blockAt d p (putChat msg w) = blockAt d p w.
Proof. unfold blockAt. rewrite getDimension_putChat. reflexivity. Qed.
Lemma itemsOf_putChat d msg w : itemsOf d (putChat msg w) = itemsOf d w.
Proof. unfold itemsOf. rewrite getDimension_putChat. reflexivity. Qed.
Lemma chat_putChat msg w : chat (putChat msg w) = chat w ++ [msg].
Proof. reflexivity. Qed.

Lemma entityAt_putInbox d id p msg w : entityAt d id (putInbox p msg w) = entityAt d id w.
Proof. unfold entityAt. rewrite getDimension_putInbox. reflexivity. Qed.
Lemma blockAt_putInbox d q p msg w : blockAt d q (putInbox p msg w) = blockAt d q w.
Proof. unfold blockAt. rewrite getDimension_putInbox. reflexivity. Qed.
Lemma itemsOf_putInbox d p msg w : itemsOf d (putInbox p msg w) = itemsOf d w.
Proof. unfold itemsOf. rewrite getDimension_putInbox. reflexivity. Qed.

Lemma entityAt_bumpId d id w : entityAt d id (bumpId w) = entityAt d id w.
Proof. unfold entityAt. rewrite getDimension_bumpId. reflexivity. Qed.
Lemma blockAt_bumpId d q w : blockAt d q (bumpId w) = blockAt d q w.
Proof. unfold blockAt. rewrite getDimension_bumpId. reflexivity. Qed.
Lemma itemsOf_bumpId d w : itemsOf d (bumpId w) = itemsOf d w.
Proof. unfold itemsOf. rewrite getDimension_bumpId. reflexivity. Qed.

Create Rewrite HintDb world.

#[local] Hint Rewrite entityAt_putEntity_eq blockAt_putEntity itemsOf_putEntity
  chat_putEntity inbox_putEntity nextId_putEntity
  entityAt_putBlock itemsOf_putBlock chat_putBlock inbox_putBlock nextId_putBlock
  entityAt_putItem blockAt_putItem chat_putItem inbox_putItem nextId_putItem
  entityAt_putChat blockAt_putChat itemsOf_putChat chat_putChat
  entityAt_putInbox blockAt_putInbox itemsOf_putInbox
  entityAt_bumpId blockAt_bumpId itemsOf_bumpId : world.

Lemma setDimension_setDimension d dm dm' w :
  setDimension d dm (setDimension d dm' w) = setDimension d dm w.
Proof. destruct d; reflexivity. Qed.

Lemma putEntity_putEntity d id o o' w :
  putEntity d id o (putEntity d id o' w) = putEntity d id o w.
Proof.
  unfold putEntity. rewrite getDimension_setDimension, decide_True by done.
  rewrite setDimension_setDimension. cbn [blocks entities items].
  f_equal. f_equal.
  destruct o, o'; first [apply insert_insert_eq | apply insert_delete_eq
                         | apply delete_insert_eq | apply delete_delete_eq].
Qed.

Lemma putItem_putEntity d d' id o st p w :
  putItem d' st p (putEntity d id o w) = putEntity d id o (putItem d' st p w).
Proof. destruct d, d'; reflexivity. Qed.

Lemma putBlock_putEntity d d' id o q ty w :
  putBlock d' q ty (putEntity d id o w) = putEntity d id o (putBlock d' q ty w).
Proof. destruct d, d'; reflexivity. Qed.

Lemma putChat_putEntity d id o msg w :
  putChat msg (putEntity d id o w) = putEntity d id o (putChat msg w).
Proof. destruct d; reflexivity. Qed.

(** ** One step of one generator, path by path *)

Section Steps.
Variable itemValid : string -> Number -> bool.

Lemma eqb_air_false (s : string) :
  s <> "minecraft:air" -> String.eqb s "minecraft:air" = false.
Proof. intros H. apply String.eqb_neq. exact H. Qed.

Ltac settle :=
  repeat first
    [ progress autorewrite with world
    | rewrite putEntity_putEntity
    | progress cbv beta
    | progress cbn [nameTag tags location with_nameTag with_tag with_effect negb] ].

(** The probed block is air: the step clears the block above it, kills
    the marker and broadcasts. *)
Lemma processEntity_block_missing d id tag w e :
  entityAt d id w = Some e ->
  blockAt d (probedBlock e) w = "minecraft:air" ->
  processEntity itemValid id d tag w
  = Ok tt (putChat MSG_BLOCK_MISSING
             (putEntity d id None (putBlock d (clearedBlock e) "minecraft:air" w))).
Proof.
  intros He Hb. unfold probedBlock in Hb.
  unfold processEntity, bind, entitySet, entityGet, getBlockTypeId.
  rewrite He. settle. rewrite Hb, String.eqb_refl.
  unfold setBlockType, kill, sendMessage. settle.
  rewrite putBlock_putEntity. settle. reflexivity.
Qed.

Lemma location_primed values e : location (primed values e) = location e.
Proof. unfold primed. destruct (hasTag _ _); reflexivity. Qed.

(** Up to the countdown: the probe finds a block, and the marker is
    initialized if it was not; both cases of the tag are followed. *)
Ltac enter_countdown He Hb :=
  unfold probedBlock in Hb;
  unfold primed, hasTag in *; cbn [tags with_effect] in *;
  let Hinit := fresh "Hinit" in
  match type of He with
  | _ = Some ?e => destruct (bool_decide ("count_initialized" ∈ tags e)) eqn:Hinit
  end;
  cbn [nameTag tags location with_nameTag with_tag with_effect] in *;
  unfold processEntity, bind, ret, entitySet, entityGet, getBlockTypeId;
  rewrite He; settle;
  rewrite (eqb_air_false _ Hb); settle;
  unfold hasTag; cbn [tags with_effect]; rewrite Hinit; settle.

(** The label does not parse: it is set from the tag. *)
Lemma processEntity_reset d id tag w e :
  entityAt d id w = Some e ->
  blockAt d (probedBlock e) w <> "minecraft:air" ->
  parseInt (nameTag (primed (tagValues tag) e)) = NaN ->
  processEntity itemValid id d tag w
  = Ok tt (putEntity d id
             (Some (with_nameTag (show (tagValues tag !! 0%nat))
                      (primed (tagValues tag) e))) w).
Proof.
  intros He Hb Hl. enter_countdown He Hb; rewrite Hl; settle; reflexivity.
Qed.

(** The countdown stays positive: the label is decremented. *)
Lemma processEntity_count d id tag w e c :
  entityAt d id w = Some e ->
  blockAt d (probedBlock e) w <> "minecraft:air" ->
  parseInt (nameTag (primed (tagValues tag) e)) = Int c ->
  1 < c ->
  processEntity itemValid id d tag w
  = Ok tt (putEntity d id
             (Some (with_nameTag (String_ (Int (c - 1)))
                      (primed (tagValues tag) e))) w).
Proof.
  intros He Hb Hl Hc.
  assert ((c - 1 <=? 0) = false) as Hc' by lia.
  enter_countdown He Hb; rewrite Hl, Hc'; settle; reflexivity.
Qed.

(** The countdown runs out and the host takes the item: one stack is
    spawned [ITEM_SPAWN_OFFSET] below the marker and the label is reset. *)
Lemma processEntity_emit d id tag w e c ty :
  entityAt d id w = Some e ->
  blockAt d (probedBlock e) w <> "minecraft:air" ->
  parseInt (nameTag (primed (tagValues tag) e)) = Int c ->
  c <= 1 ->
  tagValues tag !! 1%nat = Some ty ->
  itemValid ty (parseIntU (tagValues tag !! 2%nat)) = true ->
  processEntity itemValid id d tag w
  = Ok tt (putEntity d id
             (Some (with_nameTag (String_ (parseIntU (tagValues tag !! 0%nat)))
                      (primed (tagValues tag) e)))
             (putItem d (mkItemStack ty (parseIntU (tagValues tag !! 2%nat)))
                (add_y (location e) (- ITEM_SPAWN_OFFSET)) w)).
Proof.
  intros He Hb Hl Hc Hty Hv.
  assert ((c - 1 <=? 0) = true) as Hc' by lia.
  enter_countdown He Hb; rewrite Hl, Hc'; settle;
    unfold try_catch, newItemStack, bind, ret, spawnItem, entitySet;
    rewrite Hty, Hv; settle;
    rewrite putItem_putEntity; settle; reflexivity.
Qed.

(** The countdown runs out and the host refuses the item: the block
    [BARRIER_OFFSET] above the marker is cleared, the marker is killed and
    two lines are broadcast. *)
Lemma processEntity_item_rejected d id tag w e c :
  entityAt d id w = Some e ->
  blockAt d (probedBlock e) w <> "minecraft:air" ->
  parseInt (nameTag (primed (tagValues tag) e)) = Int c ->
  c <= 1 ->
  itemAccepted itemValid (tagValues tag) = false ->
  processEntity itemValid id d tag w
  = Ok tt (putChat MSG_INVALID_ITEM
             (putChat MSG_INVALID_GENERATOR
                (putEntity d id None
                   (putBlock d (floorPos (add_y (location e) BARRIER_OFFSET))
                      "minecraft:air" w)))).
Proof.
  intros He Hb Hl Hc Hv. unfold itemAccepted in Hv.
  assert ((c - 1 <=? 0) = true) as Hc' by lia.
  enter_countdown He Hb; rewrite Hl, Hc'; settle;
    unfold try_catch, newItemStack, removeInvalidGenerator, bind, ret, throw,
      spawnItem, entitySet, entityGet, setBlockType, kill, sendMessage;
    (destruct (tagValues tag !! 1%nat) as [ty|]; [rewrite Hv|]); settle;
    rewrite putBlock_putEntity; settle; reflexivity.
Qed.
End Steps.

(** ** Coordinates *)

Lemma Qfloor_between (q : Q) (a : Z) :
  (inject_Z a <= q)%Q -> (q < inject_Z a + 1)%Q -> Qfloor q = a.
Proof.
  intros Hlo Hhi.
  apply Qfloor_resp_le in Hlo. rewrite Qfloor_Z in Hlo.
  pose proof (Qfloor_le q) as Hq.
  assert (inject_Z (Qfloor q) < inject_Z (a + 1))%Q as Hlt.
  { rewrite inject_Z_plus. eapply Qle_lt_trans; [exact Hq | exact Hhi]. }
  rewrite <- Zlt_Qlt in Hlt. lia.
Qed.

Lemma Qfloor_half (a : Z) : Qfloor (inject_Z a + (1 # 2)) = a.
Proof. apply Qfloor_between; lra. Qed.

Lemma Qfloor_shift (a k : Z) (q : Q) :
  (q == inject_Z a + inject_Z k)%Q -> Qfloor q = a + k.
Proof. intros ->. rewrite <- inject_Z_plus. apply Qfloor_Z. Qed.

Lemma floorPos_markerPos bx by_ bz :
  floorPos (markerPos (bx, by_, bz)) = (bx, by_ + 100, bz).
Proof.
  unfold floorPos, markerPos, add_y, toVector, BARRIER_OFFSET; cbn [vx vy vz].
  rewrite !Qfloor_half. rewrite (Qfloor_shift by_ 100); [reflexivity|].
  change (inject_Z 100) with 100%Q. lra.
Qed.

Lemma probedBlock_marker e bx by_ bz :
  location e = markerPos (bx, by_, bz) -> probedBlock e = (bx, by_, bz).
Proof.
  intros H. unfold probedBlock. rewrite H.
  unfold floorPos, markerPos, add_y, toVector, BARRIER_OFFSET; cbn [vx vy vz].
  rewrite !Qfloor_half. rewrite (Qfloor_shift by_ 0); [f_equal; f_equal; lia|].
  change (inject_Z 0) with 0%Q. lra.
Qed.

Lemma clearedBlock_marker e bx by_ bz :
  location e = markerPos (bx, by_, bz) -> clearedBlock e = (bx, by_ + 99, bz).
Proof.
  intros H. unfold clearedBlock. rewrite H.
  unfold floorPos, markerPos, add_y, toVector, BARRIER_OFFSET; cbn [vx vy vz].
  rewrite !Qfloor_half. rewrite (Qfloor_shift by_ 99); [reflexivity|].
  change (inject_Z 99) with 99%Q. lra.
Qed.

Lemma spawnPos_marker bx by_ bz :
  same_point (add_y (markerPos (bx, by_, bz)) (- ITEM_SPAWN_OFFSET))
    {| vx := inject_Z bx + (1 # 2); vy := inject_Z by_ + 2; vz := inject_Z bz + (1 # 2) |}.
Proof.
  unfold same_point, markerPos, add_y, toVector, BARRIER_OFFSET, ITEM_SPAWN_OFFSET;
    cbn [vx vy vz].
  repeat split; lra.
Qed.

(** ** Placement *)

Lemma setUpArmorStand_run (block : Block) (settings : GeneratorSettings) (w : World) :
  setUpArmorStand block settings w
  = Ok tt
      (putEntity (dimension block) (nextId w)
         (Some (mkEntity "minecraft:armor_stand" (markerPos (blockLocation block))
                  (String_ (ticks settings))
                  [genTag settings (blockLocation block)] ∅))
         (bumpId
            (putBlock (dimension block)
               (let '(bx, by_, bz) := blockLocation block in (bx, by_ + 99, bz))
               "minecraft:barrier" w))).
Proof.
  destruct block as [d [[bx by_] bz]].
  unfold setUpArmorStand, bind, setBlockType, spawnEntity, entitySet.
  cbn [dimension blockLocation].
  assert (floorPos (add_y (toVector (bx, by_, bz)) BARRIER_OFFSET) = (bx, by_ + 99, bz)) as ->.
  { unfold floorPos, add_y, toVector, BARRIER_OFFSET; cbn [vx vy vz].
    rewrite !Qfloor_Z. rewrite (Qfloor_shift by_ 99); [reflexivity|].
    change (inject_Z 99) with 99%Q. lra. }
  autorewrite with world. rewrite putEntity_putEntity.
  autorewrite with world. rewrite putEntity_putEntity.
  cbn [with_nameTag with_tag typeId location nameTag tags effects].
  rewrite ?nextId_putBlock.
  reflexivity.
Qed.

(** ** The scan *)

Lemma omap_all_None {A B} (f : A -> option B) (l : list A) :
  Forall (fun x => f x = None) l -> omap f l = [].
Proof.
  induction 1 as [|x l Hx _ IH]; [reflexivity|].
  cbn. rewrite Hx. exact IH.
Qed.

Lemma scanDimension_none (d : DimensionId) (w : World) :
  (forall id e, entityAt d id w = Some e -> genTagOf e = None) ->
  scanDimension d w = [].
Proof.
  intros Hnone. unfold scanDimension. apply omap_all_None.
  apply Forall_forall. intros [id e] Hin.
  apply elem_of_map_to_list in Hin. cbn. rewrite (Hnone id e Hin). reflexivity.
Qed.

Lemma scanDimension_sole (d : DimensionId) (m : EntityId) (tag : string) (e : Entity)
    (w : World) :
  entityAt d m w = Some e ->
  genTagOf e = Some tag ->
  (forall id e', id <> m -> entityAt d id w = Some e' -> genTagOf e' = None) ->
  scanDimension d w = [(m, d, tag)].
Proof.
  intros He Htag Hothers. unfold scanDimension, entityAt in *.
  set (M := entities (getDimension d w)) in *.
  apply Permutation_singleton_r.
  rewrite <- (insert_delete_id M m e He).
  rewrite map_to_list_insert by apply lookup_delete_eq.
  cbn. rewrite Htag. cbn.
  rewrite omap_all_None; [reflexivity|].
  apply Forall_forall. intros [id e'] Hin.
  apply elem_of_map_to_list in Hin.
  apply lookup_delete_Some in Hin as [Hne Hin].
  cbn. rewrite (Hothers id e'); [reflexivity|congruence|exact Hin].
Qed.

(** ** The tag *)

Lemma lacks_comma_String_ (n : Number) : lacks "," (String_ n) = true.
Proof. destruct n; [reflexivity | apply lacks_comma_String]. Qed.

Lemma tagValues_genTag (settings : GeneratorSettings) (bx by_ bz : Z) :
  lacks "," (show (itemId settings)) = true ->
  tagValues (genTag settings (bx, by_, bz))
  = [String_ (ticks settings); show (itemId settings); String_ (itemCount settings);
     String_ (Int bx); String_ (Int by_); String_ (Int bz)].
Proof.
  intros Hid. unfold tagValues, genTag.
  rewrite replace_prefix. change ("" +:+ ?s) with s.
  repeat match goal with
  | |- context [?a +:+ "," +:+ ?r] => change (a +:+ "," +:+ r) with (a +:+ String "," r)
  end.
  rewrite !split_field by (first [exact Hid | apply lacks_comma_String_ | apply lacks_comma_String]).
  rewrite split_last by apply lacks_comma_String.
  reflexivity.
Qed.

(** ** Markers across steps *)

Lemma find_app_Some {A} (f : A -> bool) (l r : list A) (x : A) :
  List.find f l = Some x -> List.find f (l ++ r) = Some x.
Proof.
  induction l as [|a l IH]; cbn; [discriminate|].
  destruct (f a); [trivial | exact IH].
Qed.

Lemma find_app_None {A} (f : A -> bool) (l r : list A) :
  List.find f l = None -> List.find f (l ++ r) = List.find f r.
Proof.
  induction l as [|a l IH]; cbn; [reflexivity|].
  destruct (f a); [discriminate | exact IH].
Qed.

Lemma genTagOf_with_tag t e tag :
  genTagOf e = Some tag -> genTagOf (with_tag t e) = Some tag.
Proof.
  unfold genTagOf, with_tag; cbn [tags]. intros H.
  destruct (bool_decide (t ∈ tags e)); [exact H | apply find_app_Some, H].
Qed.

Lemma genTagOf_primed values e : genTagOf (primed values e) = genTagOf e.
Proof.
  unfold primed, hasTag; cbn [tags with_effect].
  destruct (bool_decide ("count_initialized" ∈ tags e)) eqn:Hi; [reflexivity|].
  unfold genTagOf, with_tag; cbn [tags with_nameTag with_effect]. rewrite Hi.
  destruct (List.find _ (tags e)) as [t|] eqn:Hf.
  - apply find_app_Some, Hf.
  - rewrite (find_app_None _ _ _ Hf). reflexivity.
Qed.

Lemma hasTag_primed values e : hasTag "count_initialized" (primed values e) = true.
Proof.
  unfold primed, hasTag; cbn [tags with_effect].
  destruct (bool_decide ("count_initialized" ∈ tags e)) eqn:Hi; cbn [tags with_effect].
  - exact Hi.
  - unfold with_tag; cbn [tags with_nameTag with_effect]. rewrite Hi.
    apply bool_decide_eq_true. apply elem_of_app. right. apply list_elem_of_singleton.
    reflexivity.
Qed.

Lemma primed_relabelled values s e :
  hasTag "count_initialized" e = true ->
  nameTag (primed values (with_nameTag s e)) = s.
Proof.
  intros H. unfold primed, hasTag in *; cbn [tags with_effect with_nameTag].
  rewrite H. reflexivity.
Qed.

(** ** Whole steps *)

Section Lifecycle.
Variable itemValid : string -> Number -> bool.

Lemma tick_none (w : World) : noGenerators w -> tick itemValid w = Ok tt w.
Proof.
  intros H. unfold tick, DIMENSIONS. cbn [flat_map].
  rewrite !scanDimension_none by (intros id e; apply H). reflexivity.
Qed.

Lemma tick_sole (d : DimensionId) (m : EntityId) (tag : string) (w : World) :
  soleGenerator d m tag w ->
  tick itemValid w = bind (processEntity itemValid m d tag) (fun _ => ret tt) w.
Proof.
  intros [(e & He & Htag) Hothers]. unfold tick, DIMENSIONS. cbn [flat_map].
  assert (forall d', d' <> d -> scanDimension d' w = []) as Hnone.
  { intros d' Hd. apply scanDimension_none. intros id e'.
    apply Hothers. congruence. }
  assert (scanDimension d w = [(m, d, tag)]) as Hsole.
  { apply (scanDimension_sole d m tag e); [exact He | exact Htag |].
    intros id e' Hid. apply Hothers. congruence. }
  destruct d; rewrite Hsole, !Hnone by discriminate; reflexivity.
Qed.

Lemma ticks_run_succ (n : nat) (w : World) :
  ticks_run itemValid (S n) w
  = worldOf (tick itemValid (ticks_run itemValid n w)).
Proof.
  revert w. induction n as [|n IH]; intros w; [reflexivity|].
  change (ticks_run itemValid (S (S n)) w)
    with (ticks_run itemValid (S n) (worldOf (tick itemValid w))).
  rewrite IH. reflexivity.
Qed.

Lemma running_sole d m tag basePos c w :
  running d m tag basePos c w -> soleGenerator d m tag w.
Proof.
  intros [(e & He & _ & Htag & _) [_ Hothers]].
  split; [exists e; split; assumption | exact Hothers].
Qed.

(** A step of a running generator whose countdown is above one. *)
Lemma running_count d m tag bx by_ bz c w :
  running d m tag (bx, by_, bz) c w -> 1 < c ->
  exists w', tick itemValid w = Ok tt w' /\
    running d m tag (bx, by_, bz) (c - 1) w' /\
    (forall d', itemsOf d' w' = itemsOf d' w) /\
    (forall d' p, blockAt d' p w' = blockAt d' p w) /\
    chat w' = chat w.
Proof.
  intros Hrun Hc. pose proof (running_sole _ _ _ _ _ _ Hrun) as Hsole.
  destruct Hrun as [(e & He & Hloc & Htag & Hlabel) [Hblock Hothers]].
  rewrite (tick_sole _ _ _ _ Hsole). unfold bind.
  rewrite (processEntity_count itemValid d m tag w e c He); [|
    rewrite (probedBlock_marker e bx by_ bz Hloc); exact Hblock | exact Hlabel | exact Hc].
  eexists. split; [reflexivity|].
  split; [|split; [|split]].
  - split; [|split].
    + eexists. rewrite entityAt_putEntity_eq. split; [reflexivity|].
      cbn [location with_nameTag]. rewrite location_primed.
      split; [exact Hloc|]. split.
      * unfold genTagOf in *. cbn [tags with_nameTag].
        fold (genTagOf (primed (tagValues tag) e)). rewrite genTagOf_primed. exact Htag.
      * rewrite primed_relabelled by apply hasTag_primed.
        apply parseInt_String.
    + rewrite blockAt_putEntity. exact Hblock.
    + intros d' id e' Hne. rewrite entityAt_putEntity.
      rewrite decide_False by (intros [-> ->]; apply Hne; reflexivity).
      apply Hothers, Hne.
  - intros d'. apply itemsOf_putEntity.
  - intros d' p. apply blockAt_putEntity.
  - apply chat_putEntity.
Qed.

(** The step of a running generator whose countdown has run out, when
    the host takes the item. *)
Lemma running_emit d m tag bx by_ bz c n ty w :
  running d m tag (bx, by_, bz) c w -> c <= 1 ->
  tagValues tag !! 1%nat = Some ty ->
  itemValid ty (parseIntU (tagValues tag !! 2%nat)) = true ->
  parseIntU (tagValues tag !! 0%nat) = Int n ->
  exists w', tick itemValid w = Ok tt w' /\
    running d m tag (bx, by_, bz) n w' /\
    itemsOf d w' = itemsOf d w ++
      [(mkItemStack ty (parseIntU (tagValues tag !! 2%nat)),
        add_y (markerPos (bx, by_, bz)) (- ITEM_SPAWN_OFFSET))] /\
    (forall d', d' <> d -> itemsOf d' w' = itemsOf d' w) /\
    (forall d' p, blockAt d' p w' = blockAt d' p w) /\
    chat w' = chat w /\
    nameTag <$> entityAt d m w' = Some (String_ (Int n)).
Proof.
  intros Hrun Hc Hty Hv Hn. pose proof (running_sole _ _ _ _ _ _ Hrun) as Hsole.
  destruct Hrun as [(e & He & Hloc & Htag & Hlabel) [Hblock Hothers]].
  rewrite (tick_sole _ _ _ _ Hsole). unfold bind.
  rewrite (processEntity_emit itemValid d m tag w e c ty He); [|
    rewrite (probedBlock_marker e bx by_ bz Hloc); exact Hblock
    | exact Hlabel | exact Hc | exact Hty | exact Hv].
  rewrite Hn, Hloc.
  eexists. split; [reflexivity|].
  split; [|split; [|split; [|split; [|split]]]].
  - split; [|split].
    + eexists. rewrite entityAt_putEntity_eq. split; [reflexivity|].
      cbn [location with_nameTag]. rewrite location_primed.
      split; [exact Hloc|]. split.
      * unfold genTagOf in *. cbn [tags with_nameTag].
        fold (genTagOf (primed (tagValues tag) e)). rewrite genTagOf_primed. exact Htag.
      * rewrite primed_relabelled by apply hasTag_primed.
        apply parseInt_String.
    + rewrite blockAt_putEntity, blockAt_putItem. exact Hblock.
    + intros d' id e' Hne. rewrite entityAt_putEntity.
      rewrite decide_False by (intros [-> ->]; apply Hne; reflexivity).
      rewrite entityAt_putItem. apply Hothers, Hne.
  - rewrite itemsOf_putEntity, itemsOf_putItem, decide_True by reflexivity. reflexivity.
  - intros d' Hd. rewrite itemsOf_putEntity, itemsOf_putItem, decide_False by congruence.
    reflexivity.
  - intros d' p. rewrite blockAt_putEntity. apply blockAt_putItem.
  - rewrite chat_putEntity. apply chat_putItem.
  - rewrite entityAt_putEntity_eq. reflexivity.
Qed.

(** While the countdown stays above one, steps only count down. *)
Lemma running_countdown d m tag bx by_ bz (k : nat) :
  forall c w,
    running d m tag (bx, by_, bz) c w -> Z.of_nat k < c ->
    running d m tag (bx, by_, bz) (c - Z.of_nat k) (ticks_run itemValid k w) /\
    (forall d', itemsOf d' (ticks_run itemValid k w) = itemsOf d' w) /\
    (forall d' p, blockAt d' p (ticks_run itemValid k w) = blockAt d' p w) /\
    chat (ticks_run itemValid k w) = chat w.
Proof.
  induction k as [|k IH]; intros c w Hrun Hk.
  - cbn [ticks_run]. replace (c - Z.of_nat 0) with c by lia. auto.
  - destruct (running_count d m tag bx by_ bz c w Hrun) as
      (w1 & Htick & Hrun1 & Hitems1 & Hblocks1 & Hchat1); [lia|].
    cbn [ticks_run]. rewrite Htick. cbn [worldOf].
    destruct (IH (c - 1) w1 Hrun1) as (Hrun' & Hitems' & Hblocks' & Hchat'); [lia|].
    replace (c - Z.of_nat (S k)) with (c - 1 - Z.of_nat k) by lia.
    split; [exact Hrun'|]. split; [|split].
    + intros d'. rewrite Hitems'. apply Hitems1.
    + intros d' p. rewrite Hblocks'. apply Hblocks1.
    + rewrite Hchat'. exact Hchat1.
Qed.

(** What placement leaves behind is a running generator. *)
Lemma running_placed (w0 : World) d bx by_ bz (n c : Z) (item : string) :
  lacks "," item = true ->
  blockAt d (bx, by_, bz) w0 <> "minecraft:air" ->
  noGenerators w0 ->
  let settings := mkSettings (Int n) (Some item) (Int c) in
  setUpArmorStand (mkBlock d (bx, by_, bz)) settings w0
  = Ok tt (worldOf (setUpArmorStand (mkBlock d (bx, by_, bz)) settings w0)) /\
  running d (nextId w0) (genTag settings (bx, by_, bz)) (bx, by_, bz) n
    (worldOf (setUpArmorStand (mkBlock d (bx, by_, bz)) settings w0)).
Proof.
  intros Hitem Hblock Hnone settings.
  pose proof (setUpArmorStand_run (mkBlock d (bx, by_, bz)) settings w0) as Hset.
  cbn [dimension blockLocation] in Hset. rewrite Hset. cbn [worldOf].
  split; [reflexivity|].
  assert (genTagOf (mkEntity "minecraft:armor_stand" (markerPos (bx, by_, bz))
                      (String_ (ticks settings)) [genTag settings (bx, by_, bz)] ∅)
          = Some (genTag settings (bx, by_, bz))) as Htag.
  { destruct settings as [t i cnt]. reflexivity. }
  split; [|split].
  - eexists. rewrite entityAt_putEntity_eq. split; [reflexivity|].
    split; [reflexivity|]. split; [exact Htag|].
    rewrite tagValues_genTag by exact Hitem.
    unfold primed, hasTag; cbn [tags with_effect].
    rewrite bool_decide_eq_false_2.
    + cbn [nameTag with_tag with_nameTag lookup list_lookup show ticks settings].
      apply parseInt_String.
    + intros Hin. apply list_elem_of_singleton in Hin.
      destruct settings as [t i cnt]. discriminate Hin.
  - rewrite blockAt_putEntity, blockAt_bumpId, blockAt_putBlock.
    rewrite decide_False by (intros [_ Heq]; injection Heq; lia). exact Hblock.
  - intros d' id e' Hne. rewrite entityAt_putEntity.
    rewrite decide_False by (intros [Hd Hid]; apply Hne; congruence).
    rewrite entityAt_bumpId, entityAt_putBlock. apply Hnone.
Qed.

(** C1 (as amended): in a world without other generators, for a
    configuration with [0 < n], [0 < c] (both exactly representable), an
    item id that begins with the namespace, holds no comma and is taken by
    the item system with that count, placed on a block that is not air:
    the first [n - 1] steps after placement emit nothing, the [n]-th step
    emits exactly one stack of that item and count, two blocks above the
    base of the configured block and centred on it (98 below the marker),
    the label reads [n] again, and the anchor is still in place. *)
Theorem placement_then_interval (w0 : World) (d : DimensionId) (bx by_ bz n c : Z)
    (item : string) :
  0 < n <= MAX_SAFE_INTEGER -> 0 < c <= MAX_SAFE_INTEGER ->
  startsWith item "minecraft:" = true ->
  lacks "," item = true ->
  itemValid item (Int c) = true ->
  blockAt d (bx, by_, bz) w0 <> "minecraft:air" ->
  noGenerators w0 ->
  let settings := mkSettings (Int n) (Some item) (Int c) in
  let w1 := worldOf (setUpArmorStand (mkBlock d (bx, by_, bz)) settings w0) in
  let wn := ticks_run itemValid (Z.to_nat n) w1 in
  (forall k d', (k < Z.to_nat n)%nat ->
                itemsOf d' (ticks_run itemValid k w1) = itemsOf d' w0) /\
  (exists pos,
      itemsOf d wn = itemsOf d w0 ++ [(mkItemStack item (Int c), pos)] /\
      same_point pos
        {| vx := inject_Z bx + (1 # 2); vy := inject_Z by_ + 2;
           vz := inject_Z bz + (1 # 2) |}) /\
  (forall d', d' <> d -> itemsOf d' wn = itemsOf d' w0) /\
  nameTag <$> entityAt d (nextId w0) wn = Some (String_ (Int n)) /\
  blockAt d (bx, by_ + 99, bz) wn = "minecraft:barrier".
Proof.
  intros Hn Hc _ Hitem Hvalid Hblock Hnone settings w1 wn.
  destruct (running_placed w0 d bx by_ bz n c item Hitem Hblock Hnone) as [Hset Hrun].
  fold settings in Hset, Hrun. fold w1 in Hset, Hrun.
  assert (forall d', itemsOf d' w1 = itemsOf d' w0) as Hitems1.
  { intros d'. subst w1. rewrite setUpArmorStand_run. cbn [worldOf].
    rewrite itemsOf_putEntity, itemsOf_bumpId. apply itemsOf_putBlock. }
  assert (blockAt d (bx, by_ + 99, bz) w1 = "minecraft:barrier") as Hanchor1.
  { subst w1. rewrite setUpArmorStand_run. cbn [worldOf dimension blockLocation].
    rewrite blockAt_putEntity, blockAt_bumpId, blockAt_putBlock.
    rewrite decide_True by (split; reflexivity). reflexivity. }
  assert (tagValues (genTag settings (bx, by_, bz))
          = [String_ (Int n); item; String_ (Int c);
             String_ (Int bx); String_ (Int by_); String_ (Int bz)]) as Hvalues
    by (apply tagValues_genTag; exact Hitem).
  split; [|].
  { intros k d' Hk.
    destruct (running_countdown d (nextId w0) _ bx by_ bz k n w1 Hrun) as (_ & Hit & _);
      [lia|].
    rewrite Hit. apply Hitems1. }
  destruct (running_countdown d (nextId w0) _ bx by_ bz (Z.to_nat (n - 1)) n w1 Hrun)
    as (Hrun' & Hit' & Hbl' & _); [lia|].
  replace (n - Z.of_nat (Z.to_nat (n - 1))) with 1 in Hrun' by lia.
  destruct (running_emit d (nextId w0) _ bx by_ bz 1 n item _ Hrun') as
    (w' & Htick & _ & Hemit & Hrest & Hblocks & _ & Hlabel).
  { lia. }
  { rewrite Hvalues. reflexivity. }
  { rewrite Hvalues. cbn [lookup list_lookup parseIntU]. rewrite parseInt_String.
    exact Hvalid. }
  { rewrite Hvalues. cbn [lookup list_lookup parseIntU]. apply parseInt_String. }
  assert (wn = w') as ->.
  { subst wn. replace (Z.to_nat n) with (S (Z.to_nat (n - 1))) by lia.
    rewrite ticks_run_succ, Htick. reflexivity. }
  split; [|split; [|split]].
  - eexists. split.
    + rewrite Hemit, Hit', Hitems1, Hvalues.
      cbn [lookup list_lookup parseIntU]. rewrite parseInt_String. reflexivity.
    + apply spawnPos_marker.
  - intros d' Hd. rewrite (Hrest d' Hd), Hit'. apply Hitems1.
  - exact Hlabel.
  - rewrite Hblocks, Hbl'. exact Hanchor1.
Qed.
End Lifecycle.

(** ** Scenarios of the lifecycle *)

Lemma noGenerators_stoneWorld : noGenerators stoneWorld.
Proof. intros d id e H. destruct d; vm_compute in H; discriminate H. Qed.

(** C1, witness: interval 3, two diamonds, on the stone block. *)
Lemma placement_then_interval_witness :
  let settings := mkSettings (Int 3) (Some "minecraft:diamond") (Int 2) in
  let w1 := worldOf (setUpArmorStand stoneBlock settings stoneWorld) in
  let wn := ticks_run vanillaItems (Z.to_nat 3) w1 in
  (forall k d', (k < Z.to_nat 3)%nat ->
                itemsOf d' (ticks_run vanillaItems k w1) = itemsOf d' stoneWorld) /\
  (exists pos,
      itemsOf Overworld wn
      = itemsOf Overworld stoneWorld ++ [(mkItemStack "minecraft:diamond" (Int 2), pos)] /\
      same_point pos
        {| vx := inject_Z 0 + (1 # 2); vy := inject_Z 64 + 2; vz := inject_Z 0 + (1 # 2) |}) /\
  (forall d', d' <> Overworld -> itemsOf d' wn = itemsOf d' stoneWorld) /\
  nameTag <$> entityAt Overworld (nextId stoneWorld) wn = Some (String_ (Int 3)) /\
  blockAt Overworld (0, 64 + 99, 0) wn = "minecraft:barrier".
Proof.
  apply (placement_then_interval vanillaItems stoneWorld Overworld 0 64 0 3 2
           "minecraft:diamond").
  - vm_compute. split; [reflexivity | discriminate].
  - vm_compute. split; [reflexivity | discriminate].
  - reflexivity.
  - reflexivity.
  - reflexivity.
  - vm_compute. discriminate.
  - intros d id e H. destruct d; vm_compute in H; discriminate H.
Defined.

(** C1, counterexample: the item id [minecraft:a,b] begins with the
    namespace and passes validation, yet the first step after placement
    emits nothing and removes the marker, with the anchor in place before
    and after. *)
Lemma placement_comma_item_no_emission :
  let settings := mkSettings (Int 1) (Some "minecraft:a,b") (Int 1) in
  let w1 := worldOf (setUpArmorStand stoneBlock settings stoneWorld) in
  let w2 := ticks_run vanillaItems 1 w1 in
  validate settings = true /\
  blockAt Overworld (0, 163, 0) w1 = "minecraft:barrier" /\
  blockAt Overworld (0, 163, 0) w2 = "minecraft:barrier" /\
  decodeTag (genTag settings (0, 64, 0)) = (Int 1, Some "minecraft:a", NaN) /\
  itemsOf Overworld w2 = [] /\
  entityAt Overworld 0 w2 = None.
Proof. vm_compute. repeat split. Qed.

(** C6 (as amended): for integers [n] and [c] that are exactly
    representable and an item id without a comma, the fields read off the
    tag that placement writes are [n], the item id and [c] again, whatever
    the anchor position. *)
Theorem decode_encode (n c : Z) (item : string) (basePos : BlockPos) :
  Z.abs n <= MAX_SAFE_INTEGER -> Z.abs c <= MAX_SAFE_INTEGER ->
  lacks "," item = true ->
  decodeTag (genTag (mkSettings (Int n) (Some item) (Int c)) basePos)
  = (Int n, Some item, Int c).
Proof.
  intros _ _ Hitem. destruct basePos as [[bx by_] bz].
  unfold decodeTag. rewrite tagValues_genTag by exact Hitem.
  cbn [lookup list_lookup parseIntU ticks itemId itemCount show].
  rewrite !parseInt_String. reflexivity.
Qed.

(** C6, witness: the default configuration at (0, 64, 0). *)
Lemma decode_encode_witness :
  decodeTag (genTag (mkSettings (Int 200) (Some "minecraft:diamond") (Int 1)) (0, 64, 0))
  = (Int 200, Some "minecraft:diamond", Int 1).
Proof.
  apply (decode_encode 200 1 "minecraft:diamond" (0, 64, 0)).
  - vm_compute. discriminate.
  - vm_compute. discriminate.
  - reflexivity.
Defined.

(** C6, counterexample: an item id with a comma passes validation and does
    not come back: its tail is read as the count. *)
Lemma decode_encode_comma :
  let x := mkSettings (Int 5) (Some "minecraft:a,b") (Int 1) in
  validate x = true /\
  decodeTag (genTag x (0, 64, 0)) = (Int 5, Some "minecraft:a", NaN) /\
  decodeTag (genTag x (0, 64, 0)) <> (ticks x, itemId x, itemCount x).
Proof. vm_compute. repeat split. discriminate. Qed.

Section Scenarios.
Variable itemValid : string -> Number -> bool.

(** C5 (as amended): a generator of interval 1, item [minecraft:diamond],
    count 1, placed on a block at (0, 64, 0) that is not air, in a world
    without other generators and with an item system that takes one
    diamond: a single step emits exactly one stack of one diamond at
    (0.5, 66, 0.5), which is 98 below the marker at (0.5, 164, 0.5) and so
    two above the base of the block, and the label reads 1 again. *)
Theorem diamond_scenario (w0 : World) :
  itemValid "minecraft:diamond" (Int 1) = true ->
  blockAt Overworld (0, 64, 0) w0 <> "minecraft:air" ->
  noGenerators w0 ->
  let settings := mkSettings (Int 1) (Some "minecraft:diamond") (Int 1) in
  let w1 := worldOf (setUpArmorStand (mkBlock Overworld (0, 64, 0)) settings w0) in
  exists w2,
    tick itemValid w1 = Ok tt w2 /\
    itemsOf Overworld w2
    = itemsOf Overworld w0 ++
        [(mkItemStack "minecraft:diamond" (Int 1),
          {| vx := 1 # 2; vy := 66; vz := 1 # 2 |})] /\
    (forall d', d' <> Overworld -> itemsOf d' w2 = itemsOf d' w0) /\
    location <$> entityAt Overworld (nextId w0) w2
    = Some {| vx := 1 # 2; vy := 164; vz := 1 # 2 |} /\
    (164 - ITEM_SPAWN_OFFSET == 66)%Q /\
    nameTag <$> entityAt Overworld (nextId w0) w2 = Some "1".
Proof.
  intros Hvalid Hblock Hnone settings w1.
  destruct (running_placed w0 Overworld 0 64 0 1 1 "minecraft:diamond"
              eq_refl Hblock Hnone) as [Hset Hrun].
  fold settings in Hset, Hrun. fold w1 in Hset, Hrun.
  assert (forall d', itemsOf d' w1 = itemsOf d' w0) as Hitems1.
  { intros d'. subst w1. rewrite setUpArmorStand_run. cbn [worldOf].
    rewrite itemsOf_putEntity, itemsOf_bumpId. apply itemsOf_putBlock. }
  destruct (running_emit itemValid Overworld (nextId w0) _ 0 64 0 1 1
              "minecraft:diamond" w1 Hrun) as
    (w2 & Htick & Hrun2 & Hemit & Hrest & _ & _ & Hlabel);
    [lia | reflexivity | exact Hvalid | reflexivity |].
  exists w2. split; [exact Htick|].
  split; [|split; [|split; [|split]]].
  - rewrite Hemit, Hitems1. reflexivity.
  - intros d' Hd. rewrite (Hrest d' Hd). apply Hitems1.
  - destruct Hrun2 as [(e & He & Hloc & _) _]. rewrite He. cbn. rewrite Hloc.
    reflexivity.
  - reflexivity.
  - exact Hlabel.
Qed.
End Scenarios.

(** C5, witness: the stone block of [stoneWorld] and the vanilla items. *)
Lemma diamond_scenario_witness :
  let settings := mkSettings (Int 1) (Some "minecraft:diamond") (Int 1) in
  let w1 := worldOf (setUpArmorStand (mkBlock Overworld (0, 64, 0)) settings stoneWorld) in
  exists w2,
    tick vanillaItems w1 = Ok tt w2 /\
    itemsOf Overworld w2
    = itemsOf Overworld stoneWorld ++
        [(mkItemStack "minecraft:diamond" (Int 1),
          {| vx := 1 # 2; vy := 66; vz := 1 # 2 |})] /\
    (forall d', d' <> Overworld -> itemsOf d' w2 = itemsOf d' stoneWorld) /\
    location <$> entityAt Overworld (nextId stoneWorld) w2
    = Some {| vx := 1 # 2; vy := 164; vz := 1 # 2 |} /\
    (164 - ITEM_SPAWN_OFFSET == 66)%Q /\
    nameTag <$> entityAt Overworld (nextId stoneWorld) w2 = Some "1".
Proof.
  apply (diamond_scenario vanillaItems stoneWorld).
  - reflexivity.
  - vm_compute. discriminate.
  - intros d id e H. destruct d; vm_compute in H; discriminate H.
Defined.

(** C5, counterexample: the one stack the step emits lies in the block
    (0, 66, 0), four above (0, 62, 0), and nothing is emitted elsewhere. *)
Lemma diamond_not_at_62 :
  let settings := mkSettings (Int 1) (Some "minecraft:diamond") (Int 1) in
  let w1 := worldOf (setUpArmorStand stoneBlock settings stoneWorld) in
  let w2 := worldOf (tick vanillaItems w1) in
  exists st pos,
    itemsOf Overworld w2 = [(st, pos)] /\
    itemsOf Nether w2 = [] /\ itemsOf TheEnd w2 = [] /\
    floorPos pos = (0, 66, 0) /\
    (vy pos - 62 == 4)%Q /\
    floorPos pos <> (0, 64 - 2, 0).
Proof.
  eexists _, _. vm_compute. repeat split; discriminate.
Qed.

(** ** The step of a generator whose block is there, case by case *)

Lemma parseInt_show (v : option string) : parseInt (show v) = parseIntU v.
Proof. destruct v; reflexivity. Qed.

Section Cases.
Variable itemValid : string -> Number -> bool.

Lemma processEntity_cases d id tag w e :
  entityAt d id w = Some e ->
  blockAt d (probedBlock e) w <> "minecraft:air" ->
  let values := tagValues tag in
  let read := parseInt (nameTag (primed values e)) in
  (read = NaN /\
   processEntity itemValid id d tag w
   = Ok tt (putEntity d id
              (Some (with_nameTag (show (values !! 0%nat)) (primed values e))) w))
  \/ (exists c, read = Int c /\ 1 < c /\
      processEntity itemValid id d tag w
      = Ok tt (putEntity d id
                 (Some (with_nameTag (String_ (Int (c - 1))) (primed values e))) w))
  \/ (exists c ty, read = Int c /\ c <= 1 /\
      itemAccepted itemValid values = true /\
      processEntity itemValid id d tag w
      = Ok tt (putEntity d id
                 (Some (with_nameTag (String_ (parseIntU (values !! 0%nat)))
                          (primed values e)))
                 (putItem d (mkItemStack ty (parseIntU (values !! 2%nat)))
                    (add_y (location e) (- ITEM_SPAWN_OFFSET)) w)))
  \/ (exists c, read = Int c /\ c <= 1 /\
      itemAccepted itemValid values = false /\
      processEntity itemValid id d tag w
      = Ok tt (putChat MSG_INVALID_ITEM
                 (putChat MSG_INVALID_GENERATOR
                    (putEntity d id None
                       (putBlock d (floorPos (add_y (location e) BARRIER_OFFSET))
                          "minecraft:air" w))))).
Proof.
  intros He Hb values read.
  destruct read as [|c] eqn:Hread; subst read.
  - left. split; [reflexivity|]. apply processEntity_reset; assumption.
  - right. destruct (Z_lt_le_dec 1 c) as [Hc | Hc].
    + left. exists c. split; [reflexivity|]. split; [exact Hc|].
      apply processEntity_count; assumption.
    + right. destruct (itemAccepted itemValid values) eqn:Hacc.
      * left. unfold itemAccepted in Hacc.
        destruct (values !! 1%nat) as [ty|] eqn:Hty; [|discriminate Hacc].
        exists c, ty. split; [reflexivity|]. split; [exact Hc|]. split; [reflexivity|].
        apply (processEntity_emit itemValid d id tag w e c ty); assumption.
      * right. exists c. split; [reflexivity|]. split; [exact Hc|].
        split; [reflexivity|].
        apply (processEntity_item_rejected itemValid d id tag w e c); assumption.
Qed.
End Cases.

(** ** Structural validation and the countdown *)

Section Validation.
Variable itemValid : string -> Number -> bool.

(** C2 (as amended): the step destroys the generator on structural
    grounds exactly when the block it probes, [BARRIER_OFFSET + 1] below
    the marker (the configured block, not the anchor), is air.  Then it
    sets the block [BARRIER_OFFSET] above the probed one (the anchor) to
    air, kills the marker, broadcasts the diagnostic, emits nothing and
    does nothing else.  When the probed block is not air, whatever the
    anchor holds, the marker lives on and nothing is broadcast, unless the
    emission of that step is refused by the item system. *)
Theorem structural_validation d id tag w e :
  entityAt d id w = Some e ->
  (blockAt d (probedBlock e) w = "minecraft:air" ->
     exists w',
       processEntity itemValid id d tag w = Ok tt w' /\
       blockAt d (clearedBlock e) w' = "minecraft:air" /\
       entityAt d id w' = None /\
       chat w' = chat w ++ [MSG_BLOCK_MISSING] /\
       (forall d', itemsOf d' w' = itemsOf d' w) /\
       (forall d' p, (d', p) <> (d, clearedBlock e) ->
                     blockAt d' p w' = blockAt d' p w)) /\
  (blockAt d (probedBlock e) w <> "minecraft:air" ->
     exists w',
       processEntity itemValid id d tag w = Ok tt w' /\
       ((is_Some (entityAt d id w') /\ chat w' = chat w /\
         (forall d' p, blockAt d' p w' = blockAt d' p w))
        \/ (itemAccepted itemValid (tagValues tag) = false /\
            entityAt d id w' = None /\
            chat w' = chat w ++ [MSG_INVALID_GENERATOR; MSG_INVALID_ITEM]))) /\
  (forall bx by_ bz, location e = markerPos (bx, by_, bz) ->
     probedBlock e = (bx, by_, bz) /\ clearedBlock e = (bx, by_ + 99, bz)).
Proof.
  intros He. split; [|split].
  - intros Hair. eexists. split; [apply processEntity_block_missing; eassumption|].
    split; [|split; [|split; [|split]]].
    + rewrite blockAt_putChat, blockAt_putEntity, blockAt_putBlock.
      rewrite decide_True by (split; reflexivity). reflexivity.
    + rewrite entityAt_putChat. apply entityAt_putEntity_eq.
    + rewrite chat_putChat, chat_putEntity, chat_putBlock. reflexivity.
    + intros d'. rewrite itemsOf_putChat, itemsOf_putEntity. apply itemsOf_putBlock.
    + intros d' p Hne. rewrite blockAt_putChat, blockAt_putEntity, blockAt_putBlock.
      rewrite decide_False by (intros [Hd Hp]; apply Hne; congruence). reflexivity.
  - intros Hb.
    destruct (processEntity_cases itemValid d id tag w e He Hb) as
      [[_ Hrun] | [(c & _ & _ & Hrun) | [(c & ty & _ & _ & _ & Hrun)
                                        | (c & _ & _ & Hacc & Hrun)]]];
      rewrite Hrun; eexists; (split; [reflexivity|]).
    + left. rewrite entityAt_putEntity_eq, chat_putEntity.
      split; [eexists; reflexivity|]. split; [reflexivity|].
      intros d' p. apply blockAt_putEntity.
    + left. rewrite entityAt_putEntity_eq, chat_putEntity.
      split; [eexists; reflexivity|]. split; [reflexivity|].
      intros d' p. apply blockAt_putEntity.
    + left. rewrite entityAt_putEntity_eq, chat_putEntity, chat_putItem.
      split; [eexists; reflexivity|]. split; [reflexivity|].
      intros d' p. rewrite blockAt_putEntity. apply blockAt_putItem.
    + right. split; [exact Hacc|].
      rewrite !entityAt_putChat, entityAt_putEntity_eq.
      split; [reflexivity|].
      rewrite !chat_putChat, chat_putEntity, chat_putBlock.
      rewrite <- app_assoc. reflexivity.
  - intros bx by_ bz Hloc. split;
      [apply probedBlock_marker | apply clearedBlock_marker]; exact Hloc.
Qed.

(** C8 (as amended): for a generator whose probed block is not air and
    whose tag decodes to an interval [n] with [0 < n <= 2^53 - 1], one step
    does this to the countdown it reads (the marker's label, or the tag's
    first field when the marker has no [count_initialized] tag yet), as
    long as that countdown is unreadable or of magnitude at most
    [2^53 - 1]:
    - unreadable: the label becomes the interval; nothing is emitted or
      destroyed;
    - [c > 1]: the label becomes [c - 1], nothing else happens; so from
      [1 < c <= n + 1] the label lands in [1, n], and from [c > n + 1] it
      stays above [n]: such a label is not normalized, only decremented;
    - [c <= 1]: the emission branch runs; the label becomes the interval,
      or the marker is destroyed when the item system refuses the item.
    Hence a label in [1, n] stays in [1, n] as long as the marker lives. *)
Theorem countdown_label d id tag w e n :
  entityAt d id w = Some e ->
  blockAt d (probedBlock e) w <> "minecraft:air" ->
  parseIntU (tagValues tag !! 0%nat) = Int n -> 0 < n <= MAX_SAFE_INTEGER ->
  exists w',
    processEntity itemValid id d tag w = Ok tt w' /\
    let read := parseInt (nameTag (primed (tagValues tag) e)) in
    let after := (fun e' => parseInt (nameTag e')) <$> entityAt d id w' in
    (hasTag "count_initialized" e = false -> read = Int n) /\
    (read = NaN ->
       after = Some (Int n) /\ chat w' = chat w /\
       forall d', itemsOf d' w' = itemsOf d' w) /\
    (forall c, read = Int c -> 1 < c <= MAX_SAFE_INTEGER ->
       after = Some (Int (c - 1)) /\ chat w' = chat w /\
       (forall d', itemsOf d' w' = itemsOf d' w) /\
       (c <= n + 1 -> 1 <= c - 1 <= n) /\
       (n + 1 < c -> n < c - 1)) /\
    (forall c, read = Int c -> - MAX_SAFE_INTEGER <= c <= 1 ->
       (itemAccepted itemValid (tagValues tag) = true /\ after = Some (Int n))
       \/ (itemAccepted itemValid (tagValues tag) = false /\ after = None)) /\
    (forall c c', read = Int c -> 1 <= c <= n -> after = Some (Int c') ->
       1 <= c' <= n).
Proof.
  intros He Hb Hn [Hpos Hmax].
  assert (hasTag "count_initialized" e = false ->
          parseInt (nameTag (primed (tagValues tag) e)) = Int n) as Hfresh.
  { intros Hi. unfold primed, hasTag in *; cbn [tags with_effect]. rewrite Hi.
    cbn [nameTag with_tag with_nameTag]. rewrite parseInt_show. exact Hn. }
  destruct (processEntity_cases itemValid d id tag w e He Hb) as
    [[Hread Hrun] | [(c & Hread & Hc & Hrun) | [(c & ty & Hread & Hc & Hacc & Hrun)
                                                | (c & Hread & Hc & Hacc & Hrun)]]];
    rewrite Hrun; eexists; (split; [reflexivity|]); cbv zeta; rewrite Hread;
    (split; [try exact Hfresh|]).
  - intros Hi. rewrite <- Hread. apply Hfresh, Hi.
  - rewrite entityAt_putEntity_eq. cbn [fmap option_fmap option_map nameTag with_nameTag].
    rewrite parseInt_show, Hn.
    split; [|split; [|split]]; try (intros; discriminate).
    intros _. split; [reflexivity|]. split; [apply chat_putEntity|].
    intros d'. apply itemsOf_putEntity.
  - intros Hi. rewrite <- Hread. apply Hfresh, Hi.
  - rewrite entityAt_putEntity_eq. cbn [fmap option_fmap option_map nameTag with_nameTag].
    rewrite parseInt_String.
    split; [intros; discriminate|]. split; [|split].
    + intros c0 [= <-] _. split; [reflexivity|]. split; [apply chat_putEntity|].
      split; [intros d'; apply itemsOf_putEntity|]. split; lia.
    + intros c0 [= <-] Hle. lia.
    + intros c0 c' [= <-] Hrange [= <-]. lia.
  - intros Hi. rewrite <- Hread. apply Hfresh, Hi.
  - rewrite entityAt_putEntity_eq. cbn [fmap option_fmap option_map nameTag with_nameTag].
    rewrite Hn, parseInt_String.
    split; [intros; discriminate|]. split; [|split].
    + intros c0 [= <-] Hlt. lia.
    + intros c0 _ _. left. split; [exact Hacc | reflexivity].
    + intros c0 c' _ _ [= <-]. lia.
  - intros Hi. rewrite <- Hread. apply Hfresh, Hi.
  - rewrite !entityAt_putChat, entityAt_putEntity_eq. cbn [fmap option_fmap option_map].
    split; [intros; discriminate|]. split; [|split].
    + intros c0 [= <-] Hlt. lia.
    + intros c0 _ _. right. split; [exact Hacc | reflexivity].
    + intros c0 c' _ _ Habs. discriminate Habs.
Qed.
End Validation.

(** C2, witness: the marker of [fiveWorld], once with its block in place
    and once with its block taken away. *)
Lemma structural_validation_witness :
  entityAt Overworld 0 fiveWorld = Some fiveMarker /\
  (exists w',
      processEntity vanillaItems 0 Overworld fiveTag fiveWorld = Ok tt w' /\
      ((is_Some (entityAt Overworld 0 w') /\ chat w' = chat fiveWorld /\
        (forall d' p, blockAt d' p w' = blockAt d' p fiveWorld))
       \/ (itemAccepted vanillaItems (tagValues fiveTag) = false /\
           entityAt Overworld 0 w' = None /\
           chat w' = chat fiveWorld ++ [MSG_INVALID_GENERATOR; MSG_INVALID_ITEM]))) /\
  (let w := putBlock Overworld (0, 64, 0) "minecraft:air" fiveWorld in
   exists w',
     processEntity vanillaItems 0 Overworld fiveTag w = Ok tt w' /\
     blockAt Overworld (clearedBlock fiveMarker) w' = "minecraft:air" /\
     entityAt Overworld 0 w' = None /\
     chat w' = chat w ++ [MSG_BLOCK_MISSING] /\
     (forall d', itemsOf d' w' = itemsOf d' w) /\
     (forall d' p, (d', p) <> (Overworld, clearedBlock fiveMarker) ->
                   blockAt d' p w' = blockAt d' p w)).
Proof.
  split; [reflexivity|]. split.
  - apply (structural_validation vanillaItems Overworld 0%nat fiveTag fiveWorld fiveMarker).
    + reflexivity.
    + vm_compute. discriminate.
  - apply (structural_validation vanillaItems Overworld 0%nat fiveTag
             (putBlock Overworld (0, 64, 0) "minecraft:air" fiveWorld) fiveMarker).
    + reflexivity.
    + reflexivity.
Defined.

(** C2, counterexample: with the anchor of [fiveWorld] removed and the
    configured block in place, the step keeps the marker and counts down;
    with the anchor in place and the configured block removed, the step
    destroys the generator. *)
Lemma anchor_is_not_what_is_probed :
  let anchorGone := putBlock Overworld (0, 163, 0) "minecraft:air" fiveWorld in
  let blockGone := putBlock Overworld (0, 64, 0) "minecraft:air" fiveWorld in
  blockAt Overworld (0, 163, 0) fiveWorld = "minecraft:barrier" /\
  blockAt Overworld (0, 163, 0) anchorGone = "minecraft:air" /\
  nameTag <$> entityAt Overworld 0 (worldOf (tick vanillaItems anchorGone)) = Some "4" /\
  chat (worldOf (tick vanillaItems anchorGone)) = [] /\
  blockAt Overworld (0, 163, 0) blockGone = "minecraft:barrier" /\
  entityAt Overworld 0 (worldOf (tick vanillaItems blockGone)) = None /\
  chat (worldOf (tick vanillaItems blockGone)) = [MSG_BLOCK_MISSING].
Proof. vm_compute. repeat split. Qed.

(** C8, witness: the first step of the marker of [fiveWorld]. *)
Lemma countdown_label_witness :
  exists w',
    processEntity vanillaItems 0 Overworld fiveTag fiveWorld = Ok tt w' /\
    (fun e' => parseInt (nameTag e')) <$> entityAt Overworld 0 w' = Some (Int 4).
Proof.
  destruct (countdown_label vanillaItems Overworld 0%nat fiveTag fiveWorld fiveMarker 5)
    as (w' & Hrun & _ & _ & Hcount & _).
  - reflexivity.
  - vm_compute. discriminate.
  - reflexivity.
  - vm_compute. split; [reflexivity | discriminate].
  - exists w'. split; [exact Hrun|].
    apply (Hcount 5); [reflexivity | vm_compute; split; [reflexivity | discriminate]].
Defined.

(** C8, counterexample: an initialized marker of interval 5 whose label
    reads 1000 is left with the label 999 by the step. *)
Lemma label_above_interval_stays_above :
  let relabelled := with_nameTag "1000" (with_tag "count_initialized" fiveMarker) in
  let w := putEntity Overworld 0 (Some relabelled) fiveWorld in
  decodeTag fiveTag = (Int 5, Some "minecraft:diamond", Int 1) /\
  nameTag <$> entityAt Overworld 0 (worldOf (tick vanillaItems w)) = Some "999" /\
  ~ (1 <= 999 <= 5).
Proof. vm_compute. repeat split. intros [_ H]. apply H. reflexivity. Qed.

(** ** What the code does against its own description *)

(** C3, at the failing input: a generator for an item the item system does
    not know.  Its first step kills the marker, broadcasts twice and emits
    nothing, and later steps find nothing to process; but the anchor at
    (0, 163, 0) is still a barrier, and the block set to air is the one at
    (0, 263, 0), [BARRIER_OFFSET] above the marker. *)
Theorem rejected_item_leaves_anchor :
  let settings := mkSettings (Int 1) (Some "minecraft:not_an_item") (Int 1) in
  let w1 := worldOf (setUpArmorStand stoneBlock settings stoneWorld) in
  let w2 := worldOf (tick vanillaItems w1) in
  validate settings = true /\
  blockAt Overworld (0, 163, 0) w1 = "minecraft:barrier" /\
  entityAt Overworld 0 w2 = None /\
  itemsOf Overworld w2 = [] /\
  chat w2 = [MSG_INVALID_GENERATOR; MSG_INVALID_ITEM] /\
  blockAt Overworld (0, 163, 0) w2 = "minecraft:barrier" /\
  blocks (overworld w2) !! (0, 263, 0) = Some "minecraft:air" /\
  tick vanillaItems w2 = Ok tt w2.
Proof. vm_compute. repeat split. Qed.

(** C4, at the failing input: interval 5 is placed on the stone block,
    three steps pass, interval 10 is placed on the same block.  Two markers
    then stand in the same place, one per configuration; the old one emits
    two steps later and again five steps after that, the new one after ten
    steps. *)
Theorem reconfiguration_adds_a_marker :
  let tenSettings := mkSettings (Int 10) (Some "minecraft:diamond") (Int 1) in
  let w3 := ticks_run vanillaItems 3 fiveWorld in
  let w4 := worldOf (setUpArmorStand stoneBlock tenSettings w3) in
  let emitted k := length (itemsOf Overworld (ticks_run vanillaItems k w4)) in
  tags <$> entityAt Overworld 0 w4 = Some [fiveTag; "count_initialized"] /\
  tags <$> entityAt Overworld 1 w4 = Some [genTag tenSettings (0, 64, 0)] /\
  (floorPos ∘ location) <$> entityAt Overworld 0 w4 = Some (0, 164, 0) /\
  (floorPos ∘ location) <$> entityAt Overworld 1 w4 = Some (0, 164, 0) /\
  length (scanDimension Overworld w4) = 2%nat /\
  emitted 1%nat = 0%nat /\ emitted 2%nat = 1%nat /\ emitted 6%nat = 1%nat /\
  emitted 7%nat = 2%nat /\ emitted 9%nat = 2%nat /\ emitted 10%nat = 3%nat.
Proof. vm_compute. repeat split. Qed.

(** ** The handlers *)

(** C7: when a barrier sits [BARRIER_OFFSET] above the block being broken
    and an armor stand with a [gen:] tag stands in the block one above the
    barrier (by floored coordinates), the handler cancels the break and
    tells the player whenever the player is not in creative mode, and
    leaves the event alone, with no message, when the player is. *)
Theorem protection_guard (player : Player) (d : DimensionId) (bx by_ bz : Z)
    (w : World) (id : EntityId) (e : Entity) (tag : string) :
  blockAt d (bx, by_ + 99, bz) w = "minecraft:barrier" ->
  entityAt d id w = Some e ->
  typeId e = "minecraft:armor_stand" ->
  tag ∈ tags e -> startsWith tag "gen:" = true ->
  floorPos (location e) = (bx, by_ + 100, bz) ->
  let ev := mkBreak player (mkBlock d (bx, by_, bz)) in
  (getGameMode player <> creative ->
     onPlayerBreakBlock ev w
     = Ok true (putInbox (playerName player) MSG_CREATIVE_ONLY w)) /\
  (getGameMode player = creative -> onPlayerBreakBlock ev w = Ok false w).
Proof.
  intros Hbarrier He Hty Htag Hgen Hpos ev.
  assert (floorPos (add_y (toVector (bx, by_, bz)) BARRIER_OFFSET) = (bx, by_ + 99, bz))
    as Hfloor.
  { unfold floorPos, add_y, toVector, BARRIER_OFFSET; cbn [vx vy vz].
    rewrite !Qfloor_Z. rewrite (Qfloor_shift by_ 99); [reflexivity|].
    change (inject_Z 99) with 99%Q. lra. }
  assert (existsb
            (fun '(_, e0) =>
               isGeneratorMarker (add_y (add_y (toVector (bx, by_, bz)) BARRIER_OFFSET) 1) e0)
            (map_to_list (entities (getDimension d w))) = true) as Hfound.
  { apply existsb_exists. exists (id, e). split.
    - apply list_elem_of_In, elem_of_map_to_list. exact He.
    - unfold isGeneratorMarker. rewrite Hty, String.eqb_refl.
      assert (existsb (fun t => startsWith t "gen:") (tags e) = true) as ->.
      { apply existsb_exists. exists tag. split; [apply list_elem_of_In, Htag | exact Hgen]. }
      unfold floorPos in Hpos. injection Hpos as Hx Hy Hz. rewrite Hx, Hy, Hz.
      unfold add_y, toVector, BARRIER_OFFSET; cbn [vx vy vz].
      rewrite !Qfloor_Z. rewrite (Qfloor_shift by_ 100); [|change (inject_Z 100) with 100%Q; lra].
      rewrite !Z.eqb_refl. reflexivity. }
  unfold onPlayerBreakBlock, bind, ret, getBlockTypeId, getEntities, playerSendMessage.
  subst ev. cbn [breakPlayer breakBlock dimension blockLocation].
  rewrite Hfloor, Hbarrier, String.eqb_refl, Hfound.
  split; intros Hmode.
  - rewrite bool_decide_eq_false_2 by exact Hmode. reflexivity.
  - rewrite bool_decide_eq_true_2 by exact Hmode. reflexivity.
Qed.

(** C7, witness: breaking the stone block under the generator of
    [fiveWorld], in survival and in creative mode. *)
Lemma protection_guard_witness :
  onPlayerBreakBlock
    (mkBreak (mkPlayer "Steve" survival false None) (mkBlock Overworld (0, 64, 0))) fiveWorld
  = Ok true (putInbox "Steve" MSG_CREATIVE_ONLY fiveWorld) /\
  onPlayerBreakBlock
    (mkBreak (mkPlayer "Alex" creative false None) (mkBlock Overworld (0, 64, 0))) fiveWorld
  = Ok false fiveWorld.
Proof.
  split.
  - apply (protection_guard (mkPlayer "Steve" survival false None) Overworld 0 64 0
             fiveWorld 0%nat fiveMarker fiveTag);
      [reflexivity | reflexivity | reflexivity | | reflexivity | reflexivity | discriminate].
    apply list_elem_of_singleton. reflexivity.
  - apply (protection_guard (mkPlayer "Alex" creative false None) Overworld 0 64 0
             fiveWorld 0%nat fiveMarker fiveTag);
      [reflexivity | reflexivity | reflexivity | | reflexivity | reflexivity | reflexivity].
    apply list_elem_of_singleton. reflexivity.
Defined.

(** C10: when the player's view hits no block, the [itemUse] handler
    throws on reading [.block] of [undefined], whatever the item and the
    stance, and leaves the world as it was. *)
Theorem item_use_without_target (ev : ItemUseEvent) (w : World) :
  getBlockFromViewDirection (source ev) = None ->
  onItemUse ev w = Throw TypeError w.
Proof.
  intros Hview. unfold onItemUse, bind, throw. rewrite Hview. reflexivity.
Qed.

(** C10, witness: a stick used while looking at the sky. *)
Lemma item_use_without_target_witness :
  onItemUse
    (mkItemUse (mkPlayer "Steve" survival false None) (mkItemStack "minecraft:stick" (Int 1)))
    emptyWorld
  = Throw TypeError emptyWorld.
Proof.
  apply (item_use_without_target
           (mkItemUse (mkPlayer "Steve" survival false None)
              (mkItemStack "minecraft:stick" (Int 1))) emptyWorld).
  reflexivity.
Defined.

(** C9 (as amended): a submitted form whose interval or count does not
    parse as a number, or whose item id does not begin with [minecraft:],
    gets the rejection message and changes nothing else; a form closed
    without values gets the failure message and changes nothing else; and
    every other form has such an item id and an interval and a count that
    are not NaN.  When these two numbers are of magnitude at most
    [2^53 - 1], the form reaches placement with exactly these integers (of
    any sign), and the marker placed carries them in its label and tag. *)
Theorem validation_gate (player : Player) (block : Block) (vs : list string) (w : World) :
  let settings := fromFormValues vs in
  (validate settings = false ->
     showSettingModal player block (mkResponse (Some vs)) w
     = Ok tt (putInbox (playerName player) MSG_INVALID_INPUT w)) /\
  showSettingModal player block (mkResponse None) w
  = Ok tt (putInbox (playerName player) (MSG_FORM_FAILED +:+ TypeError) w) /\
  (forall msg d, getDimension d (putInbox (playerName player) msg w) = getDimension d w) /\
  (validate settings = true ->
     isNaN (ticks settings) = false /\ isNaN (itemCount settings) = false /\
     exists item,
       itemId settings = Some item /\ startsWith item "minecraft:" = true /\
       forall n c,
         ticks settings = Int n -> itemCount settings = Int c ->
         Z.abs n <= MAX_SAFE_INTEGER -> Z.abs c <= MAX_SAFE_INTEGER ->
         showSettingModal player block (mkResponse (Some vs)) w
         = setUpArmorStand block (mkSettings (Int n) (Some item) (Int c)) w /\
         entityAt (dimension block) (nextId w)
           (worldOf (showSettingModal player block (mkResponse (Some vs)) w))
         = Some (mkEntity "minecraft:armor_stand" (markerPos (blockLocation block))
                   (String_ (Int n))
                   [genTag (mkSettings (Int n) (Some item) (Int c)) (blockLocation block)]
                   ∅)).
Proof.
  intros settings. split; [|split; [|split]].
  - intros Hv. unfold showSettingModal, try_catch, bind, ret. cbn [formValues].
    fold settings. rewrite Hv. reflexivity.
  - reflexivity.
  - intros msg d. apply getDimension_putInbox.
  - intros Hv.
    assert (showSettingModal player block (mkResponse (Some vs)) w
            = setUpArmorStand block settings w) as Hshow.
    { unfold showSettingModal, try_catch, bind, ret. cbn [formValues].
      fold settings. rewrite Hv. cbn [negb].
      rewrite setUpArmorStand_run. reflexivity. }
    rewrite Hshow. clear Hshow. unfold validate in Hv.
    destruct settings as [tk io ct]. cbn [ticks itemId itemCount] in *.
    destruct tk as [|n]; [discriminate Hv|].
    destruct io as [item|]; [|discriminate Hv].
    destruct ct as [|c]; [rewrite andb_false_r in Hv; discriminate Hv|].
    split; [reflexivity|]. split; [reflexivity|].
    exists item. split; [reflexivity|].
    split; [cbn in Hv; rewrite andb_true_r in Hv; exact Hv|].
    intros n' c' [= <-] [= <-] _ _. split; [reflexivity|].
    rewrite setUpArmorStand_run. cbn [worldOf]. apply entityAt_putEntity_eq.
Qed.

(** C9, counterexample: the form values "0", "minecraft:diamond", "-3"
    pass validation, and placement creates a generator whose interval is 0
    and whose count is -3. *)
Lemma validation_accepts_non_positive :
  let vs := ["0"; "minecraft:diamond"; "-3"] in
  let settings := fromFormValues vs in
  let w := worldOf (showSettingModal (mkPlayer "Steve" survival false None) stoneBlock
                      (mkResponse (Some vs)) stoneWorld) in
  validate settings = true /\
  ticks settings = Int 0 /\ itemCount settings = Int (-3) /\
  tags <$> entityAt Overworld 0 w = Some ["gen:0,minecraft:diamond,-3,0,64,0"] /\
  inbox w = [] /\
  ~ (0 < 0) /\ ~ (0 < -3).
Proof. vm_compute. repeat split; intros H; discriminate H. Qed.

(** * Further properties of the script *)

(** ** What a step of one generator leaves alone *)

Lemma sameElsewhere_refl d id w : sameElsewhere d id w w.
Proof. split; reflexivity. Qed.

Lemma sameElsewhere_trans d id w1 w2 w3 :
  sameElsewhere d id w1 w2 -> sameElsewhere d id w2 w3 -> sameElsewhere d id w1 w3.
Proof.
  intros [Hd He] [Hd' He']. split.
  - intros d' Hne. rewrite Hd', Hd by exact Hne. reflexivity.
  - intros id' Hne. rewrite He', He by exact Hne. reflexivity.
Qed.

Lemma sameElsewhere_putEntity d id o w : sameElsewhere d id w (putEntity d id o w).
Proof.
  split.
  - intros d' Hne. unfold putEntity. rewrite getDimension_setDimension.
    rewrite decide_False by congruence. reflexivity.
  - intros id' Hne. rewrite entityAt_putEntity.
    rewrite decide_False by (intros [_ ?]; congruence). reflexivity.
Qed.

Lemma sameElsewhere_putBlock d id p ty w : sameElsewhere d id w (putBlock d p ty w).
Proof.
  split.
  - intros d' Hne. unfold putBlock. rewrite getDimension_setDimension.
    rewrite decide_False by congruence. reflexivity.
  - intros id' _. apply entityAt_putBlock.
Qed.

Lemma sameElsewhere_putItem d id st p w : sameElsewhere d id w (putItem d st p w).
Proof.
  split.
  - intros d' Hne. unfold putItem. rewrite getDimension_setDimension.
    rewrite decide_False by congruence. reflexivity.
  - intros id' _. apply entityAt_putItem.
Qed.

Lemma sameElsewhere_putChat d id msg w : sameElsewhere d id w (putChat msg w).
Proof. split; reflexivity. Qed.

Section Frames.
Variable itemValid : string -> Number -> bool.

(** Every way a step of a generator whose marker exists can end. *)
Lemma processEntity_ends d id tag w e :
  entityAt d id w = Some e ->
  let values := tagValues tag in
  let kept label := Some (with_nameTag label (primed values e)) in
  exists w', processEntity itemValid id d tag w = Ok tt w' /\
    (w' = putChat MSG_BLOCK_MISSING
            (putEntity d id None (putBlock d (clearedBlock e) "minecraft:air" w))
     \/ (exists label, w' = putEntity d id (kept label) w)
     \/ (exists label ty,
           values !! 1%nat = Some ty /\
           itemValid ty (parseIntU (values !! 2%nat)) = true /\
           w' = putEntity d id (kept label)
                  (putItem d (mkItemStack ty (parseIntU (values !! 2%nat)))
                     (add_y (location e) (- ITEM_SPAWN_OFFSET)) w))
     \/ w' = putChat MSG_INVALID_ITEM
               (putChat MSG_INVALID_GENERATOR
                  (putEntity d id None
                     (putBlock d (floorPos (add_y (location e) BARRIER_OFFSET))
                        "minecraft:air" w)))).
Proof.
  intros He values kept. subst values kept.
  destruct (decide (blockAt d (probedBlock e) w = "minecraft:air")) as [Hair | Hb].
  { eexists. split; [apply processEntity_block_missing; eassumption|]. left. reflexivity. }
  destruct (parseInt (nameTag (primed (tagValues tag) e))) as [|c] eqn:Hread.
  { eexists. split; [apply (processEntity_reset itemValid d id tag w e); assumption|].
    right. left. eexists. reflexivity. }
  destruct (Z_lt_le_dec 1 c) as [Hc | Hc].
  { eexists. split; [apply (processEntity_count itemValid d id tag w e c); assumption|].
    right. left. eexists. reflexivity. }
  destruct (itemAccepted itemValid (tagValues tag)) eqn:Hacc.
  - unfold itemAccepted in Hacc.
    destruct (tagValues tag !! 1%nat) as [ty|] eqn:Hty; [|discriminate Hacc].
    eexists. split;
      [apply (processEntity_emit itemValid d id tag w e c ty); assumption|].
    right. right. left. eexists _, ty. repeat split. exact Hacc.
  - eexists. split;
      [apply (processEntity_item_rejected itemValid d id tag w e c); assumption|].
    right. right. right. reflexivity.
Qed.

Lemma processEntity_sameElsewhere d id tag w :
  sameElsewhere d id w (worldOf (processEntity itemValid id d tag w)).
Proof.
  destruct (entityAt d id w) as [e|] eqn:He.
  - destruct (processEntity_ends d id tag w e He) as
      (w' & Hrun & [-> | [[label ->] | [(label & ty & _ & _ & ->) | ->]]]);
      rewrite Hrun; cbn [worldOf].
    + eapply sameElsewhere_trans; [|apply sameElsewhere_putChat].
      eapply sameElsewhere_trans; [|apply sameElsewhere_putEntity].
      apply sameElsewhere_putBlock.
    + apply sameElsewhere_putEntity.
    + eapply sameElsewhere_trans; [|apply sameElsewhere_putEntity].
      apply sameElsewhere_putItem.
    + eapply sameElsewhere_trans; [|apply sameElsewhere_putChat].
      eapply sameElsewhere_trans; [|apply sameElsewhere_putChat].
      eapply sameElsewhere_trans; [|apply sameElsewhere_putEntity].
      apply sameElsewhere_putBlock.
  - unfold processEntity, bind, entitySet. rewrite He. cbn [worldOf].
    apply sameElsewhere_refl.
Qed.

(** X1: a step of one generator, however it ends, leaves every other
    dimension and every other entity of its own dimension as they were;
    and it changes a block only when it destroys its generator: that block
    is set to air and is either the one the structural removal clears
    (one below the marker's block) or the one the refusal of an item clears
    ([BARRIER_OFFSET] above the marker). *)
Theorem step_touches_one_generator (d : DimensionId) (id : EntityId) (tag : string)
    (w : World) :
  let w' := worldOf (processEntity itemValid id d tag w) in
  (forall d', d' <> d -> getDimension d' w' = getDimension d' w) /\
  (forall id', id' <> id -> entityAt d id' w' = entityAt d id' w) /\
  (forall p, blockAt d p w' <> blockAt d p w ->
     blockAt d p w' = "minecraft:air" /\ entityAt d id w' = None /\
     exists e, entityAt d id w = Some e /\
       (p = clearedBlock e \/ p = floorPos (add_y (location e) BARRIER_OFFSET))).
Proof.
  intros w'. destruct (processEntity_sameElsewhere d id tag w) as [Hdims Hents].
  split; [exact Hdims|]. split; [exact Hents|]. subst w'.
  destruct (entityAt d id w) as [e|] eqn:He.
  - destruct (processEntity_ends d id tag w e He) as
      (w' & Hrun & [-> | [[label ->] | [(label & ty & _ & _ & ->) | ->]]]);
      rewrite Hrun; cbn [worldOf]; intros p Hp.
    + rewrite blockAt_putChat, blockAt_putEntity, blockAt_putBlock in Hp |- *.
      rewrite entityAt_putChat, entityAt_putEntity_eq.
      destruct (decide (d = d /\ clearedBlock e = p)) as [[_ <-] | _];
        [|contradiction]. split; [reflexivity|]. split; [reflexivity|].
      exists e. split; [reflexivity | left; reflexivity].
    + rewrite blockAt_putEntity in Hp. contradiction.
    + rewrite blockAt_putEntity, blockAt_putItem in Hp. contradiction.
    + rewrite !blockAt_putChat, blockAt_putEntity, blockAt_putBlock in Hp |- *.
      rewrite !entityAt_putChat, entityAt_putEntity_eq.
      destruct (decide (d = d /\ floorPos (add_y (location e) BARRIER_OFFSET) = p))
        as [[_ <-] | _]; [|contradiction]. split; [reflexivity|]. split; [reflexivity|].
      exists e. split; [reflexivity | right; reflexivity].
  - unfold processEntity, bind, entitySet. rewrite He. cbn [worldOf].
    intros p Hp. contradiction.
Qed.

End Frames.

(** ** The scan and the loop *)

Lemma find_first {A} (f : A -> bool) (l : list A) (x : A) :
  List.find f l = Some x <->
  exists l1 l2, l = l1 ++ x :: l2 /\ f x = true /\ Forall (fun y => f y = false) l1.
Proof.
  induction l as [|a l IH]; cbn.
  - split; [discriminate|]. intros (l1 & l2 & Hl & _). destruct l1; discriminate Hl.
  - destruct (f a) eqn:Ha.
    + split.
      * intros [= ->]. exists [], l. repeat split; [exact Ha | constructor].
      * intros (l1 & l2 & Hl & Hx & Hl1). destruct l1 as [|b l1].
        -- injection Hl as -> _. reflexivity.
        -- injection Hl as -> _. apply Forall_cons in Hl1 as [Hb _]. congruence.
    + rewrite IH. split.
      * intros (l1 & l2 & -> & Hx & Hl1). exists (a :: l1), l2.
        repeat split; [exact Hx | constructor; assumption].
      * intros (l1 & l2 & Hl & Hx & Hl1). destruct l1 as [|b l1].
        -- injection Hl as -> _. congruence.
        -- injection Hl as -> ->. apply Forall_cons in Hl1 as [_ Hl1].
           exists l1, l2. repeat split; assumption.
Qed.

Lemma elem_of_scanDimension (d d' : DimensionId) (id : EntityId) (tag : string)
    (w : World) :
  (id, d', tag) ∈ scanDimension d w <->
  d' = d /\ exists e, entityAt d id w = Some e /\ genTagOf e = Some tag.
Proof.
  unfold scanDimension, entityAt. rewrite list_elem_of_omap. split.
  - intros ([id0 e] & Hin & Hf). apply elem_of_map_to_list in Hin.
    destruct (genTagOf e) as [t|] eqn:Ht; [|discriminate Hf].
    cbn in Hf. injection Hf as -> -> ->. split; [reflexivity|]. exists e. split; assumption.
  - intros [-> (e & He & Ht)]. exists (id, e). split.
    + apply elem_of_map_to_list. exact He.
    + rewrite Ht. reflexivity.
Qed.

Lemma elem_of_snapshot (d : DimensionId) (id : EntityId) (tag : string) (w : World) :
  (id, d, tag) ∈ snapshot w <->
  exists e, entityAt d id w = Some e /\ genTagOf e = Some tag.
Proof.
  unfold snapshot, DIMENSIONS. cbn [flat_map]. rewrite app_nil_r.
  rewrite !elem_of_app, !elem_of_scanDimension. split.
  - intros [[-> H] | [[-> H] | [-> H]]]; exact H.
  - intros H. destruct d; [left | right; left | right; right]; split; trivial.
Qed.

Lemma scanDimension_keys (d : DimensionId) (w : World) :
  NoDup (entryKey <$> scanDimension d w) /\
  forall k, k ∈ entryKey <$> scanDimension d w -> k.1 = d.
Proof.
  split.
  - unfold scanDimension.
    pose proof (NoDup_fst_map_to_list (entities (getDimension d w))) as Hnd.
    induction (map_to_list (entities (getDimension d w))) as [|[id e] l IH];
      [constructor|].
    cbn in Hnd. apply NoDup_cons in Hnd as [Hnotin Hnd]. cbn.
    destruct (genTagOf e) as [t|]; cbn; [|apply IH, Hnd].
    apply NoDup_cons. split; [|apply IH, Hnd].
    intros Hin. apply list_elem_of_fmap in Hin as ([[id' d'] t'] & Hk & Hin).
    apply list_elem_of_omap in Hin as ([id0 e0] & Hin0 & Hf).
    destruct (genTagOf e0); [|discriminate Hf]. cbn in Hf. injection Hf as -> -> _.
    cbn in Hk. injection Hk as ->. apply Hnotin.
    apply list_elem_of_fmap. exists (id', e0). split; [reflexivity | exact Hin0].
  - intros [d' id] Hin. apply list_elem_of_fmap in Hin as ([[id' d''] t'] & Hk & Hin).
    apply elem_of_scanDimension in Hin as [-> _]. cbn in Hk. injection Hk as -> _.
    reflexivity.
Qed.

Lemma snapshot_NoDup (w : World) : NoDup (entryKey <$> snapshot w).
Proof.
  unfold snapshot, DIMENSIONS. cbn [flat_map]. rewrite app_nil_r, !fmap_app.
  destruct (scanDimension_keys Nether w) as [Hn Hnk].
  destruct (scanDimension_keys Overworld w) as [Ho Hok].
  destruct (scanDimension_keys TheEnd w) as [He Hek].
  apply NoDup_app. split; [exact Hn|]. split.
  - intros k Hk Hin. apply Hnk in Hk. apply elem_of_app in Hin as [Hin | Hin].
    + apply Hok in Hin. congruence.
    + apply Hek in Hin. congruence.
  - apply NoDup_app. split; [exact Ho|]. split; [|exact He].
    intros k Hk Hin. apply Hok in Hk. apply Hek in Hin. congruence.
Qed.

(** X2: the snapshot of a step holds an entry [(entity, dimension, tag)]
    exactly when the entity exists in that dimension and [tag] is the first
    of its tags, in tag order, that begins with [gen:]; later [gen:] tags
    of the same entity are never read, and no entity is listed twice. *)
Theorem snapshot_first_match (w : World) :
  (forall id d tag,
     (id, d, tag) ∈ snapshot w <->
     exists e before after,
       entityAt d id w = Some e /\
       tags e = before ++ tag :: after /\
       startsWith tag "gen:" = true /\
       Forall (fun t => startsWith t "gen:" = false) before) /\
  NoDup (entryKey <$> snapshot w).
Proof.
  split; [|apply snapshot_NoDup].
  intros id d tag. rewrite elem_of_snapshot. unfold genTagOf. split.
  - intros (e & He & Hf). apply find_first in Hf as (l1 & l2 & Ht & Hs & Hl1).
    exists e, l1, l2. repeat split; assumption.
  - intros (e & l1 & l2 & He & Ht & Hs & Hl1). exists e. split; [exact He|].
    apply find_first. exists l1, l2. repeat split; assumption.
Qed.

(** ** What a step does to its own generator *)

Lemma tags_primed values e :
  tags (primed values e)
  = if hasTag "count_initialized" e then tags e else tags e ++ ["count_initialized"].
Proof.
  unfold primed, hasTag; cbn [tags with_effect].
  destruct (bool_decide ("count_initialized" ∈ tags e)) eqn:Hi; [reflexivity|].
  unfold with_tag; cbn [tags with_nameTag with_effect]. rewrite Hi. reflexivity.
Qed.

Lemma typeId_primed values e : typeId (primed values e) = typeId e.
Proof. unfold primed. destruct (hasTag _ _); reflexivity. Qed.

Lemma effects_primed values e :
  effects (primed values e) !! "invisibility" = Some (20, false).
Proof.
  unfold primed. destruct (hasTag _ _); cbn [effects with_effect with_tag with_nameTag];
    apply lookup_insert_eq.
Qed.

Section OwnGenerator.
Variable itemValid : string -> Number -> bool.

(** X4: a marker that is still there after its step is the same armor
    stand in the same place: the step changes neither its type nor its
    location, removes no tag and adds at most [count_initialized], so the
    scan finds the same [gen:] tag again; it carries [count_initialized]
    and the invisibility effect of 20 ticks without particles. *)
Theorem marker_kept (d : DimensionId) (id : EntityId) (tag : string) (w : World)
    (e e' : Entity) :
  entityAt d id w = Some e ->
  entityAt d id (worldOf (processEntity itemValid id d tag w)) = Some e' ->
  typeId e' = typeId e /\ location e' = location e /\
  (tags e' = tags e \/ tags e' = tags e ++ ["count_initialized"]) /\
  genTagOf e' = genTagOf e /\
  hasTag "count_initialized" e' = true /\
  effects e' !! "invisibility" = Some (20, false).
Proof.
  intros He He'.
  assert (exists label, e' = with_nameTag label (primed (tagValues tag) e)) as [label ->].
  { destruct (processEntity_ends itemValid d id tag w e He) as
      (w' & Hrun & [-> | [[label ->] | [(label & ty & _ & _ & ->) | ->]]]);
      rewrite Hrun in He'; cbn [worldOf] in He'.
    - rewrite entityAt_putChat, entityAt_putEntity_eq in He'. discriminate He'.
    - rewrite entityAt_putEntity_eq in He'. injection He' as <-. eexists. reflexivity.
    - rewrite entityAt_putEntity_eq in He'. injection He' as <-. eexists. reflexivity.
    - rewrite !entityAt_putChat, entityAt_putEntity_eq in He'. discriminate He'. }
  cbn [typeId location tags effects with_nameTag].
  split; [apply typeId_primed|]. split; [apply location_primed|].
  split; [rewrite tags_primed; destruct (hasTag _ e); [left | right]; reflexivity|].
  split; [exact (genTagOf_primed (tagValues tag) e)|].
  split; [exact (hasTag_primed (tagValues tag) e) | apply effects_primed].
Qed.

(** X5: one step of one generator emits at most one stack, and only into
    the generator's own dimension; a stack it emits has the item type and
    amount of the tag's second and third field, was accepted by the item
    system, and lies [ITEM_SPAWN_OFFSET] below the marker; the marker then
    lives on and nothing is broadcast. *)
Theorem step_emits_at_most_one (d : DimensionId) (id : EntityId) (tag : string)
    (w : World) (e : Entity) :
  entityAt d id w = Some e ->
  let w' := worldOf (processEntity itemValid id d tag w) in
  let amount_ := parseIntU (tagValues tag !! 2%nat) in
  (forall d', d' <> d -> itemsOf d' w' = itemsOf d' w) /\
  (itemsOf d w' = itemsOf d w
   \/ exists ty,
        tagValues tag !! 1%nat = Some ty /\
        itemValid ty amount_ = true /\
        itemsOf d w' = itemsOf d w ++
          [(mkItemStack ty amount_, add_y (location e) (- ITEM_SPAWN_OFFSET))] /\
        is_Some (entityAt d id w') /\
        chat w' = chat w).
Proof.
  intros He w' amount_. subst w' amount_.
  destruct (processEntity_ends itemValid d id tag w e He) as
    (w' & Hrun & [-> | [[label ->] | [(label & ty & Hty & Hv & ->) | ->]]]);
    rewrite Hrun; cbn [worldOf]; split.
  - intros d' _. rewrite itemsOf_putChat, itemsOf_putEntity. apply itemsOf_putBlock.
  - left. rewrite itemsOf_putChat, itemsOf_putEntity. apply itemsOf_putBlock.
  - intros d' _. apply itemsOf_putEntity.
  - left. apply itemsOf_putEntity.
  - intros d' Hd. rewrite itemsOf_putEntity, itemsOf_putItem, decide_False by congruence.
    reflexivity.
  - right. exists ty. split; [exact Hty|]. split; [exact Hv|].
    rewrite itemsOf_putEntity, itemsOf_putItem, decide_True by reflexivity.
    split; [reflexivity|]. rewrite entityAt_putEntity_eq, chat_putEntity, chat_putItem.
    split; [eexists; reflexivity | reflexivity].
  - intros d' _. rewrite !itemsOf_putChat, itemsOf_putEntity. apply itemsOf_putBlock.
  - left. rewrite !itemsOf_putChat, itemsOf_putEntity. apply itemsOf_putBlock.
Qed.

End OwnGenerator.

(** X4, witness: the first step of the marker of [fiveWorld]. *)
Lemma marker_kept_witness :
  exists e',
    entityAt Overworld 0 (worldOf (processEntity vanillaItems 0 Overworld fiveTag fiveWorld))
    = Some e' /\
    typeId e' = typeId fiveMarker /\ location e' = location fiveMarker /\
    (tags e' = tags fiveMarker \/ tags e' = tags fiveMarker ++ ["count_initialized"]) /\
    genTagOf e' = genTagOf fiveMarker /\
    hasTag "count_initialized" e' = true /\
    effects e' !! "invisibility" = Some (20, false).
Proof.
  eexists. split; [vm_compute; reflexivity|].
  eapply (marker_kept vanillaItems Overworld 0%nat fiveTag fiveWorld fiveMarker).
  - reflexivity.
  - vm_compute. reflexivity.
Defined.

(** X5, witness: the one step of a generator of interval 1 on the stone
    block. *)
Lemma step_emits_at_most_one_witness :
  let settings := mkSettings (Int 1) (Some "minecraft:diamond") (Int 1) in
  let tag := genTag settings (0, 64, 0) in
  let w := worldOf (setUpArmorStand stoneBlock settings stoneWorld) in
  let e := mkEntity "minecraft:armor_stand" (markerPos (0, 64, 0)) "1" [tag] ∅ in
  let w' := worldOf (processEntity vanillaItems 0 Overworld tag w) in
  let amount_ := parseIntU (tagValues tag !! 2%nat) in
  (forall d', d' <> Overworld -> itemsOf d' w' = itemsOf d' w) /\
  (itemsOf Overworld w' = itemsOf Overworld w
   \/ exists ty,
        tagValues tag !! 1%nat = Some ty /\
        vanillaItems ty amount_ = true /\
        itemsOf Overworld w' = itemsOf Overworld w ++
          [(mkItemStack ty amount_, add_y (location e) (- ITEM_SPAWN_OFFSET))] /\
        is_Some (entityAt Overworld 0 w') /\
        chat w' = chat w).
Proof.
  apply (step_emits_at_most_one vanillaItems Overworld 0%nat
           (genTag (mkSettings (Int 1) (Some "minecraft:diamond") (Int 1)) (0, 64, 0))
           (worldOf (setUpArmorStand stoneBlock
                       (mkSettings (Int 1) (Some "minecraft:diamond") (Int 1)) stoneWorld))).
  reflexivity.
Defined.

(** ** Many steps of one generator *)

Section Period.
Variable itemValid : string -> Number -> bool.
Variables (d : DimensionId) (m : EntityId) (tag : string) (bx by_ bz n : Z) (ty : string).
Hypothesis Hty : tagValues tag !! 1%nat = Some ty.
Hypothesis Hvalid : itemValid ty (parseIntU (tagValues tag !! 2%nat)) = true.
Hypothesis Hn : parseIntU (tagValues tag !! 0%nat) = Int n.

Let stack : ItemStack * Vector3 :=
  (mkItemStack ty (parseIntU (tagValues tag !! 2%nat)),
   add_y (markerPos (bx, by_, bz)) (- ITEM_SPAWN_OFFSET)).

(** With an interval above zero, a countdown at [c] emits after [c] steps
    and then every [n] steps. *)
Lemma running_emissions (k : nat) :
  forall c w,
    0 < n -> 1 <= c <= n ->
    running d m tag (bx, by_, bz) c w ->
    itemsOf d (ticks_run itemValid k w)
    = itemsOf d w ++ replicate (Z.to_nat ((Z.of_nat k + n - c) / n)) stack /\
    (forall d', d' <> d -> itemsOf d' (ticks_run itemValid k w) = itemsOf d' w) /\
    chat (ticks_run itemValid k w) = chat w.
Proof.
  induction k as [|k IH]; intros c w Hpos Hc Hrun.
  - cbn [ticks_run]. replace ((Z.of_nat 0 + n - c) / n) with 0
      by (symmetry; apply Z.div_small; lia).
    cbn. rewrite app_nil_r. auto.
  - cbn [ticks_run]. destruct (Z_lt_le_dec 1 c) as [Hlt | Hle].
    + destruct (running_count itemValid d m tag bx by_ bz c w Hrun Hlt) as
        (w1 & Htick & Hrun1 & Hitems1 & _ & Hchat1).
      rewrite Htick. cbn [worldOf].
      destruct (IH (c - 1) w1 Hpos ltac:(lia) Hrun1) as (Hit & Hrest & Hchat).
      rewrite Hit, Hitems1, Hchat, Hchat1.
      replace (Z.of_nat k + n - (c - 1)) with (Z.of_nat (S k) + n - c) by lia.
      split; [reflexivity|]. split; [|reflexivity].
      intros d' Hd. rewrite (Hrest d' Hd). apply Hitems1.
    + destruct (running_emit itemValid d m tag bx by_ bz c n ty w Hrun Hle Hty Hvalid Hn)
        as (w1 & Htick & Hrun1 & Hemit & Hrest1 & _ & Hchat1 & _).
      rewrite Htick. cbn [worldOf].
      destruct (IH n w1 Hpos ltac:(lia) Hrun1) as (Hit & Hrest & Hchat).
      rewrite Hit, Hemit, Hchat, Hchat1.
      split; [|split; [|reflexivity]].
      * rewrite <- app_assoc. f_equal.
        replace (Z.of_nat (S k) + n - c) with (Z.of_nat k + 1 * n) by lia.
        rewrite Z.div_add by lia.
        replace (Z.of_nat k + n - n) with (Z.of_nat k) by lia.
        rewrite Z2Nat.inj_add by (try apply Z.div_pos; lia).
        rewrite Nat.add_comm. reflexivity.
      * intros d' Hd. rewrite (Hrest d' Hd). apply Hrest1, Hd.
Qed.

(** With an interval of one or less, every step emits. *)
Lemma running_every_step (k : nat) :
  forall c w,
    n <= 1 -> c <= 1 ->
    running d m tag (bx, by_, bz) c w ->
    itemsOf d (ticks_run itemValid k w) = itemsOf d w ++ replicate k stack /\
    (forall d', d' <> d -> itemsOf d' (ticks_run itemValid k w) = itemsOf d' w) /\
    chat (ticks_run itemValid k w) = chat w.
Proof.
  induction k as [|k IH]; intros c w Hnle Hc Hrun.
  - cbn. rewrite app_nil_r. auto.
  - cbn [ticks_run].
    destruct (running_emit itemValid d m tag bx by_ bz c n ty w Hrun Hc Hty Hvalid Hn)
      as (w1 & Htick & Hrun1 & Hemit & Hrest1 & _ & Hchat1 & _).
    rewrite Htick. cbn [worldOf].
    destruct (IH n w1 Hnle Hnle Hrun1) as (Hit & Hrest & Hchat).
    rewrite Hit, Hemit, Hchat, Hchat1.
    split; [|split; [|reflexivity]].
    + rewrite <- app_assoc. reflexivity.
    + intros d' Hd. rewrite (Hrest d' Hd). apply Hrest1, Hd.
Qed.

End Period.

Section ManySteps.
Variable itemValid : string -> Number -> bool.

(** X6: under the conditions of a working placement (interval [n > 0],
    item id without a comma and accepted with its count, block not air, no
    other generator), after [k] steps the generator has emitted exactly
    [k / n] stacks (integer division), all of the configured item and count
    and all at the same point [ITEM_SPAWN_OFFSET] below the marker; nothing
    is emitted in the other dimensions and nothing is broadcast. *)
Theorem emissions_every_interval (w0 : World) (d : DimensionId) (bx by_ bz n c : Z)
    (item : string) (k : nat) :
  0 < n <= MAX_SAFE_INTEGER -> Z.abs c <= MAX_SAFE_INTEGER ->
  lacks "," item = true ->
  itemValid item (Int c) = true ->
  blockAt d (bx, by_, bz) w0 <> "minecraft:air" ->
  noGenerators w0 ->
  let settings := mkSettings (Int n) (Some item) (Int c) in
  let w1 := worldOf (setUpArmorStand (mkBlock d (bx, by_, bz)) settings w0) in
  let wk := ticks_run itemValid k w1 in
  itemsOf d wk
  = itemsOf d w0 ++
      replicate (Z.to_nat (Z.of_nat k / n))
        (mkItemStack item (Int c),
         add_y (markerPos (bx, by_, bz)) (- ITEM_SPAWN_OFFSET)) /\
  (forall d', d' <> d -> itemsOf d' wk = itemsOf d' w0) /\
  chat wk = chat w0.
Proof.
  intros Hn _ Hitem Hvalid Hblock Hnone settings w1 wk.
  destruct (running_placed w0 d bx by_ bz n c item Hitem Hblock Hnone) as [_ Hrun].
  fold settings in Hrun. fold w1 in Hrun.
  assert (tagValues (genTag settings (bx, by_, bz))
          = [String_ (Int n); item; String_ (Int c);
             String_ (Int bx); String_ (Int by_); String_ (Int bz)]) as Hvalues
    by (apply tagValues_genTag; exact Hitem).
  assert ((forall d', itemsOf d' w1 = itemsOf d' w0) /\ chat w1 = chat w0) as [Hitems1 Hchat1].
  { subst w1. rewrite setUpArmorStand_run. cbn [worldOf]. split.
    - intros d'. rewrite itemsOf_putEntity, itemsOf_bumpId. apply itemsOf_putBlock.
    - rewrite chat_putEntity. cbn. apply chat_putBlock. }
  destruct (running_emissions itemValid d (nextId w0) (genTag settings (bx, by_, bz))
              bx by_ bz n item) with (k := k) (c := n) (w := w1) as (Hit & Hrest & Hchat).
  - rewrite Hvalues. reflexivity.
  - rewrite Hvalues. cbn [lookup list_lookup parseIntU]. rewrite parseInt_String.
    exact Hvalid.
  - rewrite Hvalues. cbn [lookup list_lookup parseIntU]. apply parseInt_String.
  - lia.
  - lia.
  - exact Hrun.
  - fold wk in Hit, Hrest, Hchat. split; [|split].
    + rewrite Hit, Hitems1, Hvalues. cbn [lookup list_lookup parseIntU].
      rewrite parseInt_String.
      replace (Z.of_nat k + n - n) with (Z.of_nat k) by lia. reflexivity.
    + intros d' Hd. rewrite (Hrest d' Hd). apply Hitems1.
    + rewrite Hchat. exact Hchat1.
Qed.

(** X7: an interval of one, zero or less, which validation lets through,
    makes the generator emit on every step: under the other conditions of a
    working placement, [k] steps emit exactly [k] stacks. *)
Theorem interval_at_most_one_emits_every_step (w0 : World) (d : DimensionId)
    (bx by_ bz n c : Z) (item : string) (k : nat) :
  n <= 1 -> Z.abs n <= MAX_SAFE_INTEGER -> Z.abs c <= MAX_SAFE_INTEGER ->
  lacks "," item = true ->
  itemValid item (Int c) = true ->
  blockAt d (bx, by_, bz) w0 <> "minecraft:air" ->
  noGenerators w0 ->
  let settings := mkSettings (Int n) (Some item) (Int c) in
  let w1 := worldOf (setUpArmorStand (mkBlock d (bx, by_, bz)) settings w0) in
  let wk := ticks_run itemValid k w1 in
  itemsOf d wk
  = itemsOf d w0 ++
      replicate k
        (mkItemStack item (Int c),
         add_y (markerPos (bx, by_, bz)) (- ITEM_SPAWN_OFFSET)) /\
  (forall d', d' <> d -> itemsOf d' wk = itemsOf d' w0) /\
  chat wk = chat w0.
Proof.
  intros Hn _ _ Hitem Hvalid Hblock Hnone settings w1 wk.
  destruct (running_placed w0 d bx by_ bz n c item Hitem Hblock Hnone) as [_ Hrun].
  fold settings in Hrun. fold w1 in Hrun.
  assert (tagValues (genTag settings (bx, by_, bz))
          = [String_ (Int n); item; String_ (Int c);
             String_ (Int bx); String_ (Int by_); String_ (Int bz)]) as Hvalues
    by (apply tagValues_genTag; exact Hitem).
  assert ((forall d', itemsOf d' w1 = itemsOf d' w0) /\ chat w1 = chat w0) as [Hitems1 Hchat1].
  { subst w1. rewrite setUpArmorStand_run. cbn [worldOf]. split.
    - intros d'. rewrite itemsOf_putEntity, itemsOf_bumpId. apply itemsOf_putBlock.
    - rewrite chat_putEntity. cbn. apply chat_putBlock. }
  destruct (running_every_step itemValid d (nextId w0) (genTag settings (bx, by_, bz))
              bx by_ bz n item) with (k := k) (c := n) (w := w1) as (Hit & Hrest & Hchat).
  - rewrite Hvalues. reflexivity.
  - rewrite Hvalues. cbn [lookup list_lookup parseIntU]. rewrite parseInt_String.
    exact Hvalid.
  - rewrite Hvalues. cbn [lookup list_lookup parseIntU]. apply parseInt_String.
  - exact Hn.
  - exact Hn.
  - exact Hrun.
  - fold wk in Hit, Hrest, Hchat. split; [|split].
    + rewrite Hit, Hitems1, Hvalues. cbn [lookup list_lookup parseIntU].
      rewrite parseInt_String. reflexivity.
    + intros d' Hd. rewrite (Hrest d' Hd). apply Hitems1.
    + rewrite Hchat. exact Hchat1.
Qed.

(** X8: a generator whose tag has no readable interval is inert once its
    label is unreadable too (or not yet initialized): with its block in
    place, the step sets the label to the tag's first field, emits
    nothing, destroys nothing and broadcasts nothing, and every further
    step leaves the world exactly as it is. *)
Theorem unreadable_interval_is_inert (d : DimensionId) (id : EntityId) (tag : string)
    (w : World) (e : Entity) :
  entityAt d id w = Some e ->
  blockAt d (probedBlock e) w <> "minecraft:air" ->
  parseIntU (tagValues tag !! 0%nat) = NaN ->
  hasTag "count_initialized" e = false \/ parseInt (nameTag e) = NaN ->
  exists w1,
    processEntity itemValid id d tag w = Ok tt w1 /\
    nameTag <$> entityAt d id w1 = Some (show (tagValues tag !! 0%nat)) /\
    (forall d', itemsOf d' w1 = itemsOf d' w) /\
    (forall d' p, blockAt d' p w1 = blockAt d' p w) /\
    chat w1 = chat w /\
    processEntity itemValid id d tag w1 = Ok tt w1.
Proof.
  intros He Hb Hn Hlabel.
  set (label := show (tagValues tag !! 0%nat)).
  assert (parseInt label = NaN) as Hnan by (subst label; rewrite parseInt_show; exact Hn).
  assert (parseInt (nameTag (primed (tagValues tag) e)) = NaN) as Hread.
  { unfold primed, hasTag in *; cbn [tags with_effect].
    destruct (bool_decide ("count_initialized" ∈ tags e)).
    - destruct Hlabel as [Habs | Hl]; [discriminate Habs | exact Hl].
    - exact Hnan. }
  set (e1 := with_nameTag label (primed (tagValues tag) e)).
  exists (putEntity d id (Some e1) w).
  split; [apply processEntity_reset; assumption|].
  split; [rewrite entityAt_putEntity_eq; reflexivity|].
  split; [intros d'; apply itemsOf_putEntity|].
  split; [intros d' p; apply blockAt_putEntity|].
  split; [apply chat_putEntity|].
  assert (primed (tagValues tag) e1 = e1) as Hfix.
  { unfold primed.
    assert (hasTag "count_initialized" (with_effect "invisibility" 20 false e1) = true) as ->.
    { unfold hasTag, e1. cbn [tags with_effect with_nameTag].
      exact (hasTag_primed (tagValues tag) e). }
    unfold e1, with_effect, with_nameTag; cbn [typeId location nameTag tags effects].
    f_equal. apply insert_id. apply effects_primed. }
  rewrite (processEntity_reset itemValid d id tag (putEntity d id (Some e1) w) e1).
  - rewrite Hfix, putEntity_putEntity.
    unfold e1 at 1. unfold with_nameTag; cbn [typeId location nameTag tags effects].
    reflexivity.
  - apply entityAt_putEntity_eq.
  - rewrite blockAt_putEntity.
    replace (probedBlock e1) with (probedBlock e); [exact Hb|].
    unfold probedBlock, e1. cbn [location with_nameTag]. rewrite location_primed.
    reflexivity.
  - rewrite Hfix. exact Hnan.
Qed.

End ManySteps.

(** X6, witness: interval 3, two diamonds, seven steps: two stacks. *)
Lemma emissions_every_interval_witness :
  let settings := mkSettings (Int 3) (Some "minecraft:diamond") (Int 2) in
  let w1 := worldOf (setUpArmorStand (mkBlock Overworld (0, 64, 0)) settings stoneWorld) in
  let wk := ticks_run vanillaItems 7 w1 in
  itemsOf Overworld wk
  = itemsOf Overworld stoneWorld ++
      replicate (Z.to_nat (Z.of_nat 7 / 3))
        (mkItemStack "minecraft:diamond" (Int 2),
         add_y (markerPos (0, 64, 0)) (- ITEM_SPAWN_OFFSET)) /\
  (forall d', d' <> Overworld -> itemsOf d' wk = itemsOf d' stoneWorld) /\
  chat wk = chat stoneWorld.
Proof.
  apply (emissions_every_interval vanillaItems stoneWorld Overworld 0 64 0 3 2
           "minecraft:diamond" 7).
  - vm_compute. split; [reflexivity | discriminate].
  - vm_compute. discriminate.
  - reflexivity.
  - reflexivity.
  - vm_compute. discriminate.
  - intros d id e H. destruct d; vm_compute in H; discriminate H.
Defined.

(** X7, witness: interval 0, one diamond, four steps: four stacks. *)
Lemma interval_at_most_one_emits_every_step_witness :
  let settings := mkSettings (Int 0) (Some "minecraft:diamond") (Int 1) in
  let w1 := worldOf (setUpArmorStand (mkBlock Overworld (0, 64, 0)) settings stoneWorld) in
  let wk := ticks_run vanillaItems 4 w1 in
  itemsOf Overworld wk
  = itemsOf Overworld stoneWorld ++
      replicate 4
        (mkItemStack "minecraft:diamond" (Int 1),
         add_y (markerPos (0, 64, 0)) (- ITEM_SPAWN_OFFSET)) /\
  (forall d', d' <> Overworld -> itemsOf d' wk = itemsOf d' stoneWorld) /\
  chat wk = chat stoneWorld.
Proof.
  apply (interval_at_most_one_emits_every_step vanillaItems stoneWorld Overworld 0 64 0 0 1
           "minecraft:diamond" 4).
  - lia.
  - vm_compute. discriminate.
  - vm_compute. discriminate.
  - reflexivity.
  - reflexivity.
  - vm_compute. discriminate.
  - intros d id e H. destruct d; vm_compute in H; discriminate H.
Defined.

(** X8, witness: an armor stand above the stone block whose tag begins
    with [gen:soon]. *)
Lemma unreadable_interval_is_inert_witness :
  let tag := "gen:soon,minecraft:diamond,1" in
  let e := mkEntity "minecraft:armor_stand" (markerPos (0, 64, 0)) "" [tag] ∅ in
  let w := putEntity Overworld 0 (Some e) stoneWorld in
  exists w1,
    processEntity vanillaItems 0 Overworld tag w = Ok tt w1 /\
    nameTag <$> entityAt Overworld 0 w1 = Some (show (tagValues tag !! 0%nat)) /\
    (forall d', itemsOf d' w1 = itemsOf d' w) /\
    (forall d' p, blockAt d' p w1 = blockAt d' p w) /\
    chat w1 = chat w /\
    processEntity vanillaItems 0 Overworld tag w1 = Ok tt w1.
Proof.
  apply (unreadable_interval_is_inert vanillaItems Overworld 0%nat
           "gen:soon,minecraft:diamond,1"
           (putEntity Overworld 0
              (Some (mkEntity "minecraft:armor_stand" (markerPos (0, 64, 0)) ""
                       ["gen:soon,minecraft:diamond,1"] ∅)) stoneWorld)
           (mkEntity "minecraft:armor_stand" (markerPos (0, 64, 0)) ""
              ["gen:soon,minecraft:diamond,1"] ∅)).
  - reflexivity.
  - vm_compute. discriminate.
  - reflexivity.
  - left. reflexivity.
Defined.

(** ** The protection guard, both ways *)

Lemma floorPos_barrier (bx by_ bz : Z) :
  floorPos (add_y (toVector (bx, by_, bz)) BARRIER_OFFSET) = (bx, by_ + 99, bz).
Proof.
  unfold floorPos, add_y, toVector, BARRIER_OFFSET; cbn [vx vy vz].
  rewrite !Qfloor_Z. rewrite (Qfloor_shift by_ 99); [reflexivity|].
  change (inject_Z 99) with 99%Q. lra.
Qed.

Lemma isGeneratorMarker_iff (bx by_ bz : Z) (e : Entity) :
  isGeneratorMarker (add_y (add_y (toVector (bx, by_, bz)) BARRIER_OFFSET) 1) e = true <->
  typeId e = "minecraft:armor_stand" /\
  (exists tag, tag ∈ tags e /\ startsWith tag "gen:" = true) /\
  floorPos (location e) = (bx, by_ + 100, bz).
Proof.
  unfold isGeneratorMarker, floorPos, add_y, toVector, BARRIER_OFFSET; cbn [vx vy vz].
  rewrite !Qfloor_Z.
  rewrite (Qfloor_shift by_ 100 (inject_Z by_ + 99 + 1))
    by (change (inject_Z 100) with 100%Q; lra).
  rewrite !andb_true_iff, String.eqb_eq, !Z.eqb_eq, existsb_exists.
  split.
  - intros [[Hty (tag & Hin & Hs)] [[Hx Hy] Hz]].
    split; [exact Hty|]. split; [exists tag; split; [apply list_elem_of_In, Hin | exact Hs]|].
    congruence.
  - intros (Hty & (tag & Hin & Hs) & Hpos). injection Hpos as Hx Hy Hz.
    split; [split; [exact Hty|]|auto].
    exists tag. split; [apply list_elem_of_In, Hin | exact Hs].
Qed.

Lemma markerFound_iff (d : DimensionId) (bx by_ bz : Z) (w : World) :
  existsb
    (fun '(_, e) =>
       isGeneratorMarker (add_y (add_y (toVector (bx, by_, bz)) BARRIER_OFFSET) 1) e)
    (map_to_list (entities (getDimension d w))) = true <->
  exists id e tag,
    entityAt d id w = Some e /\ typeId e = "minecraft:armor_stand" /\
    tag ∈ tags e /\ startsWith tag "gen:" = true /\
    floorPos (location e) = (bx, by_ + 100, bz).
Proof.
  rewrite existsb_exists. split.
  - intros ([id e] & Hin & Hm). apply list_elem_of_In, elem_of_map_to_list in Hin.
    apply isGeneratorMarker_iff in Hm as (Hty & (tag & Ht & Hs) & Hpos).
    exists id, e, tag. auto.
  - intros (id & e & tag & He & Hty & Ht & Hs & Hpos). exists (id, e). split.
    + apply list_elem_of_In, elem_of_map_to_list. exact He.
    + apply isGeneratorMarker_iff. split; [exact Hty|]. split; [|exact Hpos].
      exists tag. split; assumption.
Qed.

(** X9: whenever the guard runs to its end, it has changed nothing but
    the messages of the breaking player, and it has cancelled the break
    exactly when the player is not in creative mode, a barrier sits
    [BARRIER_OFFSET] above the block, and some armor stand with a [gen:]
    tag stands in the block above the barrier.  A barrier alone, an
    untagged armor stand or a tagged entity of another type protects
    nothing. *)
Theorem guard_cancels_only_generators (player : Player) (d : DimensionId)
    (bx by_ bz : Z) (w w' : World) (cancel : bool) :
  onPlayerBreakBlock (mkBreak player (mkBlock d (bx, by_, bz))) w = Ok cancel w' ->
  w' = (if cancel then putInbox (playerName player) MSG_CREATIVE_ONLY w else w) /\
  (cancel = true <->
     getGameMode player <> creative /\
     blockAt d (bx, by_ + 99, bz) w = "minecraft:barrier" /\
     exists id e tag,
       entityAt d id w = Some e /\ typeId e = "minecraft:armor_stand" /\
       tag ∈ tags e /\ startsWith tag "gen:" = true /\
       floorPos (location e) = (bx, by_ + 100, bz)).
Proof.
  unfold onPlayerBreakBlock, bind, ret, getBlockTypeId, getEntities, playerSendMessage.
  cbn [breakPlayer breakBlock dimension blockLocation].
  rewrite floorPos_barrier, <- markerFound_iff.
  destruct (String.eqb_spec (blockAt d (bx, by_ + 99, bz) w) "minecraft:barrier")
    as [Hbar | Hbar].
  - destruct (existsb _ (map_to_list (entities (getDimension d w)))) eqn:Hfound.
    + destruct (bool_decide (getGameMode player = creative)) eqn:Hmode;
        cbn [andb negb]; intros [= <- <-]; (split; [reflexivity|]).
      * apply bool_decide_eq_true in Hmode. split; [discriminate|].
        intros [Hne _]. contradiction.
      * apply bool_decide_eq_false in Hmode. split; [|reflexivity].
        intros _. split; [exact Hmode|]. split; [exact Hbar | reflexivity].
    + cbn [andb]. intros [= <- <-]. split; [reflexivity|].
      split; [discriminate|]. intros (_ & _ & Habs). discriminate Habs.
  - intros [= <- <-]. split; [reflexivity|].
    split; [discriminate|]. intros (_ & Habs & _). contradiction.
Qed.

(** X9, witness: a survival player breaks the stone block under the
    generator of [fiveWorld]. *)
Lemma guard_cancels_only_generators_witness :
  let steve := mkPlayer "Steve" survival false None in
  onPlayerBreakBlock (mkBreak steve (mkBlock Overworld (0, 64, 0))) fiveWorld
  = Ok true (putInbox "Steve" MSG_CREATIVE_ONLY fiveWorld) /\
  getGameMode steve <> creative /\
  blockAt Overworld (0, 64 + 99, 0) fiveWorld = "minecraft:barrier" /\
  exists id e tag,
    entityAt Overworld id fiveWorld = Some e /\ typeId e = "minecraft:armor_stand" /\
    tag ∈ tags e /\ startsWith tag "gen:" = true /\
    floorPos (location e) = (0, 64 + 100, 0).
Proof.
  split; [vm_compute; reflexivity|].
  apply (guard_cancels_only_generators (mkPlayer "Steve" survival false None)
           Overworld 0 64 0 fiveWorld
           (putInbox "Steve" MSG_CREATIVE_ONLY fiveWorld) true);
    vm_compute; reflexivity.
Defined.

(** ** Placement *)

Lemma startsWith_genTag (settings : GeneratorSettings) (basePos : BlockPos) :
  startsWith (genTag settings basePos) "gen:" = true.
Proof.
  destruct basePos as [[bx by_] bz]. unfold startsWith, genTag.
  rewrite strip_prefix_app. reflexivity.
Qed.

(** X10: a block is protected as soon as a generator has been placed on
    it, whatever the settings and whatever the world held before: a break
    by a player who is not in creative mode is cancelled with the message,
    and a break by a player in creative mode is let through. *)
Theorem placed_block_is_protected (player : Player) (d : DimensionId) (bx by_ bz : Z)
    (settings : GeneratorSettings) (w : World) :
  let block := mkBlock d (bx, by_, bz) in
  let w1 := worldOf (setUpArmorStand block settings w) in
  (getGameMode player <> creative ->
     onPlayerBreakBlock (mkBreak player block) w1
     = Ok true (putInbox (playerName player) MSG_CREATIVE_ONLY w1)) /\
  (getGameMode player = creative ->
     onPlayerBreakBlock (mkBreak player block) w1 = Ok false w1).
Proof.
  intros block w1.
  assert (blockAt d (bx, by_ + 99, bz) w1 = "minecraft:barrier") as Hbar.
  { subst w1 block. rewrite setUpArmorStand_run. cbn [worldOf dimension blockLocation].
    rewrite blockAt_putEntity, blockAt_bumpId, blockAt_putBlock.
    rewrite decide_True by (split; reflexivity). reflexivity. }
  assert (existsb
            (fun '(_, e) =>
               isGeneratorMarker (add_y (add_y (toVector (bx, by_, bz)) BARRIER_OFFSET) 1) e)
            (map_to_list (entities (getDimension d w1))) = true) as Hfound.
  { apply markerFound_iff. eexists (nextId w), _, (genTag settings (bx, by_, bz)).
    subst w1 block. rewrite setUpArmorStand_run. cbn [worldOf dimension blockLocation].
    rewrite entityAt_putEntity_eq. split; [reflexivity|].
    cbn [typeId tags location]. split; [reflexivity|].
    split; [apply list_elem_of_singleton; reflexivity|].
    split; [apply startsWith_genTag | apply floorPos_markerPos]. }
  unfold onPlayerBreakBlock, bind, ret, getBlockTypeId, getEntities, playerSendMessage.
  subst block. cbn [breakPlayer breakBlock dimension blockLocation].
  rewrite floorPos_barrier, Hbar, String.eqb_refl, Hfound.
  split; intros Hmode.
  - rewrite bool_decide_eq_false_2 by exact Hmode. reflexivity.
  - rewrite bool_decide_eq_true_2 by exact Hmode. reflexivity.
Qed.

(** ** Removing a generator *)

Section Removal.
Variable itemValid : string -> Number -> bool.

(** X12: when the configured block of a running generator is taken away
    (as a creative player's break does), the next step of the loop removes
    the generator altogether: the marker is gone, the anchor position
    holds air, the diagnostic is broadcast once, nothing is emitted, no
    generator is left in the world, and later steps change nothing. *)
Theorem broken_block_removes_generator (d : DimensionId) (m : EntityId) (tag : string)
    (bx by_ bz c : Z) (w : World) :
  running d m tag (bx, by_, bz) c w ->
  let broken := putBlock d (bx, by_, bz) "minecraft:air" w in
  exists w',
    tick itemValid broken = Ok tt w' /\
    entityAt d m w' = None /\
    blockAt d (bx, by_ + 99, bz) w' = "minecraft:air" /\
    chat w' = chat w ++ [MSG_BLOCK_MISSING] /\
    (forall d', itemsOf d' w' = itemsOf d' w) /\
    noGenerators w' /\
    tick itemValid w' = Ok tt w'.
Proof.
  intros [(e & He & Hloc & Htag & _) [_ Hothers]] broken.
  assert (soleGenerator d m tag broken) as Hsole.
  { split.
    - exists e. subst broken. rewrite entityAt_putBlock. split; assumption.
    - intros d' id e' Hne. subst broken. rewrite entityAt_putBlock. apply Hothers, Hne. }
  assert (entityAt d m broken = Some e) as He'
    by (subst broken; rewrite entityAt_putBlock; exact He).
  assert (blockAt d (probedBlock e) broken = "minecraft:air") as Hair.
  { rewrite (probedBlock_marker e bx by_ bz Hloc). subst broken.
    rewrite blockAt_putBlock, decide_True by (split; reflexivity). reflexivity. }
  rewrite (tick_sole itemValid d m tag broken Hsole). unfold bind.
  rewrite (processEntity_block_missing itemValid d m tag broken e He' Hair).
  rewrite (clearedBlock_marker e bx by_ bz Hloc). cbn [ret].
  set (w' := putChat MSG_BLOCK_MISSING
               (putEntity d m None (putBlock d (bx, by_ + 99, bz) "minecraft:air" broken))).
  assert (noGenerators w') as Hnone.
  { intros d' id e'. subst w' broken.
    rewrite entityAt_putChat, entityAt_putEntity.
    destruct (decide (d = d' /\ m = id)) as [_ | Hne]; [discriminate|].
    rewrite !entityAt_putBlock. apply Hothers.
    intros Heq. apply Hne. injection Heq as -> ->. split; reflexivity. }
  exists w'. split; [reflexivity|].
  split; [subst w'; rewrite entityAt_putChat; apply entityAt_putEntity_eq|].
  split.
  { subst w'. rewrite blockAt_putChat, blockAt_putEntity, blockAt_putBlock.
    rewrite decide_True by (split; reflexivity). reflexivity. }
  split.
  { subst w' broken. rewrite chat_putChat, chat_putEntity, !chat_putBlock. reflexivity. }
  split.
  { intros d'. subst w' broken.
    rewrite itemsOf_putChat, itemsOf_putEntity, !itemsOf_putBlock. reflexivity. }
  split; [exact Hnone | apply tick_none, Hnone].
Qed.

End Removal.

(** X12, witness: the stone block of [fiveWorld] is broken. *)
Lemma broken_block_removes_generator_witness :
  let broken := putBlock Overworld (0, 64, 0) "minecraft:air" fiveWorld in
  exists w',
    tick vanillaItems broken = Ok tt w' /\
    entityAt Overworld 0 w' = None /\
    blockAt Overworld (0, 64 + 99, 0) w' = "minecraft:air" /\
    chat w' = chat fiveWorld ++ [MSG_BLOCK_MISSING] /\
    (forall d', itemsOf d' w' = itemsOf d' fiveWorld) /\
    noGenerators w' /\
    tick vanillaItems w' = Ok tt w'.
Proof.
  apply (broken_block_removes_generator vanillaItems Overworld 0%nat fiveTag 0 64 0 5
           fiveWorld).
  apply (running_placed stoneWorld Overworld 0 64 0 5 1 "minecraft:diamond").
  - reflexivity.
  - vm_compute. discriminate.
  - intros d id e H. destruct d; vm_compute in H; discriminate H.
Defined.

(** ** The tag, field by field *)

(** X13: when the item id holds no comma, the tag has exactly six
    fields, and its last three read back as the coordinates of the
    configured block (which the step itself never reads: it goes by the
    marker's location). *)
Theorem tag_keeps_block_position (settings : GeneratorSettings) (bx by_ bz : Z) :
  lacks "," (show (itemId settings)) = true ->
  Z.abs bx <= MAX_SAFE_INTEGER -> Z.abs by_ <= MAX_SAFE_INTEGER ->
  Z.abs bz <= MAX_SAFE_INTEGER ->
  let values := tagValues (genTag settings (bx, by_, bz)) in
  length values = 6%nat /\
  parseIntU (values !! 3%nat) = Int bx /\
  parseIntU (values !! 4%nat) = Int by_ /\
  parseIntU (values !! 5%nat) = Int bz.
Proof.
  intros Hitem _ _ _ values. subst values. rewrite tagValues_genTag by exact Hitem.
  cbn [length lookup list_lookup parseIntU]. rewrite !parseInt_String. auto.
Qed.

(** X13, witness: the tag of [fiveWorld]. *)
Lemma tag_keeps_block_position_witness :
  let values := tagValues (genTag fiveSettings (0, 64, 0)) in
  length values = 6%nat /\
  parseIntU (values !! 3%nat) = Int 0 /\
  parseIntU (values !! 4%nat) = Int 64 /\
  parseIntU (values !! 5%nat) = Int 0.
Proof.
  apply (tag_keeps_block_position fiveSettings 0 64 0).
  - reflexivity.
  - vm_compute. discriminate.
  - vm_compute. discriminate.
  - vm_compute. discriminate.
Defined.

(** X14: the interval always survives the tag: whatever the item id is (a
    comma in it, or no item id at all), the first field of the tag is the
    interval as written, and an integer interval reads back as itself. *)
Theorem interval_survives_any_item (n : Z) (item : option string) (count : Number)
    (basePos : BlockPos) :
  Z.abs n <= MAX_SAFE_INTEGER ->
  let tag := genTag (mkSettings (Int n) item count) basePos in
  tagValues tag !! 0%nat = Some (String_ (Int n)) /\
  (decodeTag tag).1.1 = Int n.
Proof.
  intros _ tag. destruct basePos as [[bx by_] bz].
  assert (tagValues tag !! 0%nat = Some (String_ (Int n))) as Hfirst.
  { subst tag. unfold tagValues, genTag. rewrite replace_prefix.
    change ("" +:+ ?s) with s. cbn [ticks].
    match goal with
    | |- context [?a +:+ "," +:+ ?r] => change (a +:+ "," +:+ r) with (a +:+ String "," r)
    end.
    rewrite split_field by apply lacks_comma_String. reflexivity. }
  split; [exact Hfirst|].
  unfold decodeTag. cbn [fst]. rewrite Hfirst. cbn [parseIntU]. apply parseInt_String.
Qed.

(** X14, witness: interval 5 with the item id [minecraft:a,b]. *)
Lemma interval_survives_any_item_witness :
  let tag := genTag (mkSettings (Int 5) (Some "minecraft:a,b") (Int 1)) (0, 64, 0) in
  tagValues tag !! 0%nat = Some (String_ (Int 5)) /\
  (decodeTag tag).1.1 = Int 5.
Proof.
  apply (interval_survives_any_item 5 (Some "minecraft:a,b") (Int 1) (0, 64, 0)).
  vm_compute. discriminate.
Defined.

(** ** What the form's number fields accept *)

Lemma pretty_N_go_app (x : N) (s r : string) :
  pretty_N_go x s +:+ r = pretty_N_go x (s +:+ r).
Proof.
  revert s. induction (N.lt_wf_0 x) as [x _ IH]. intros s.
  destruct (decide (x = 0)%N) as [-> | Hx]; [reflexivity|].
  rewrite (pretty_N_go_step x s), (pretty_N_go_step x (s +:+ r)) by lia.
  rewrite IH by (apply N.div_lt; lia). reflexivity.
Qed.

Lemma pretty_N_go_head (x : N) (s : string) :
  (0 < x)%N ->
  exists c s', pretty_N_go x s = String c s' /\ is_digit c = true /\ c <> "0"%char.
Proof.
  revert s. induction (N.lt_wf_0 x) as [x _ IH]. intros s Hx.
  rewrite pretty_N_go_step by exact Hx.
  destruct (decide (x `div` 10 = 0)%N) as [Hq | Hq].
  - rewrite Hq, pretty_N_go_0. eexists _, _. split; [reflexivity|].
    split; [apply is_digit_pretty_N_char|].
    assert (x < 10)%N as Hlt by (apply N.div_small_iff in Hq; lia).
    rewrite N.mod_small by exact Hlt.
    assert (x = 1 \/ x = 2 \/ x = 3 \/ x = 4 \/ x = 5 \/ x = 6 \/
            x = 7 \/ x = 8 \/ x = 9)%N as Hd by lia.
    repeat (destruct Hd as [-> | Hd]; [discriminate|]). subst x. discriminate.
  - apply IH; [apply N.div_lt; lia | apply N.neq_0_lt_0, Hq].
Qed.

Lemma parse_digits_trailing (acc : option Z) (rest : string) :
  trailing rest = true -> parse_digits 10 acc rest = acc.
Proof.
  destruct rest as [|c rest]; [reflexivity|]. cbn [trailing parse_digits].
  intros H. apply andb_prop in H as [H _]. apply andb_prop in H as [H _].
  apply negb_true_iff in H.
  assert (digit_value 10 c = None) as ->; [|reflexivity].
  destruct c as [[] [] [] [] [] [] [] []]; try reflexivity; discriminate H.
Qed.

Lemma parseInt_nonzero_head (c : ascii) (s : string) :
  is_digit c = true -> c <> "0"%char ->
  parseInt (String c s)
  = match parse_digits 10 None (String c s) with Some v => Int v | None => NaN end /\
  parseInt (String "-" (String c s))
  = match parse_digits 10 None (String c s) with Some v => Int (- v) | None => NaN end.
Proof.
  intros Hc H0. unfold parseInt.
  rewrite (skip_space_head c s) by (left; exact Hc).
  rewrite (skip_space_head "-" (String c s)) by (right; reflexivity).
  destruct c as [[] [] [] [] [] [] [] []]; try discriminate Hc; try congruence;
    split; reflexivity.
Qed.

Lemma parseInt_zero_trailing (rest : string) :
  trailing rest = true -> parseInt (String "0" rest) = Int 0.
Proof.
  intros H. unfold parseInt. rewrite skip_space_head by (left; reflexivity).
  destruct rest as [|c rest]; [reflexivity|].
  destruct c as [[] [] [] [] [] [] [] []]; try discriminate H; reflexivity.
Qed.

(** [parseInt] reads the number and drops what trails it. *)
Lemma parseInt_trailing (z : Z) (rest : string) :
  trailing rest = true -> parseInt (String_ (Int z) +:+ rest) = Int z.
Proof.
  intros H.
  assert (forall p, exists c s,
            pretty (Z.pos p) +:+ rest = String c s /\ is_digit c = true /\
            c <> "0"%char /\ parse_digits 10 None (String c s) = Some (Z.pos p)) as Hpos.
  { intros p. rewrite pretty_positive_unfold, pretty_N_go_app. cbn [String.app].
    destruct (pretty_N_go_head (N.pos p) rest) as (c & s & Heq & Hc & H0); [lia|].
    exists c, s. split; [exact Heq|]. split; [exact Hc|]. split; [exact H0|].
    rewrite <- Heq.
    destruct (parse_digits_pretty_N_go (N.pos p)) as (k & _ & Hgo); [lia|].
    rewrite Hgo, parse_digits_trailing by exact H. reflexivity. }
  destruct z as [|p|p].
  - apply parseInt_zero_trailing, H.
  - destruct (Hpos p) as (c & s & Heq & Hc & H0 & Hparse).
    change (String_ (Int (Z.pos p))) with (pretty (Z.pos p)). rewrite Heq.
    rewrite (proj1 (parseInt_nonzero_head c s Hc H0)), Hparse. reflexivity.
  - destruct (Hpos p) as (c & s & Heq & Hc & H0 & Hparse).
    change (String_ (Int (Z.neg p)) +:+ rest) with (String "-" (pretty (Z.pos p) +:+ rest)).
    rewrite Heq.
    rewrite (proj2 (parseInt_nonzero_head c s Hc H0)), Hparse. reflexivity.
Qed.

(** X15: the number fields of the form are read by their numeric prefix:
    text after the interval or after the count (a unit, a decimal part, an
    exponent, spaces) is dropped without a message, and the settings are
    those of the bare numbers; so such a form passes validation exactly
    when its item id begins with [minecraft:]. *)
Theorem form_numbers_may_trail (n c : Z) (item r1 r2 : string) (more : list string) :
  Z.abs n <= MAX_SAFE_INTEGER -> Z.abs c <= MAX_SAFE_INTEGER ->
  trailing r1 = true -> trailing r2 = true ->
  let settings :=
    fromFormValues
      ((String_ (Int n) +:+ r1) :: item :: (String_ (Int c) +:+ r2) :: more) in
  settings = mkSettings (Int n) (Some item) (Int c) /\
  validate settings = startsWith item "minecraft:".
Proof.
  intros _ _ H1 H2 settings.
  assert (settings = mkSettings (Int n) (Some item) (Int c)) as ->.
  { subst settings. unfold fromFormValues, newGeneratorSettings.
    cbn [lookup list_lookup parseIntU]. rewrite !parseInt_trailing by assumption.
    reflexivity. }
  split; [reflexivity|].
  unfold validate. cbn [ticks itemId itemCount isNaN negb andb].
  apply andb_true_r.
Qed.

(** X15, witness: "5 ticks", "minecraft:diamond", "2.5". *)
Lemma form_numbers_may_trail_witness :
  let settings := fromFormValues ["5 ticks"; "minecraft:diamond"; "2.5"] in
  settings = mkSettings (Int 5) (Some "minecraft:diamond") (Int 2) /\
  validate settings = startsWith "minecraft:diamond" "minecraft:".
Proof.
  apply (form_numbers_may_trail 5 2 "minecraft:diamond" " ticks" ".5" []).
  - vm_compute. discriminate.
  - vm_compute. discriminate.
  - reflexivity.
  - reflexivity.
Defined.

(** ** The loop with several generators *)

Lemma sameElsewhere_entityAt d id w w1 :
  sameElsewhere d id w w1 ->
  forall d0 id0, (d0, id0) <> (d, id) -> entityAt d0 id0 w1 = entityAt d0 id0 w.
Proof.
  intros [Hdims Hents] d0 id0 Hne. destruct (decide (d0 = d)) as [-> | Hd].
  - apply Hents. congruence.
  - unfold entityAt. rewrite (Hdims d0 Hd). reflexivity.
Qed.



Section Dimensions.
Variable itemValid : string -> Number -> bool.


(** What the loop leaves alone, however it ends. *)
Lemma forEach_processEntity_frame (l : list (EntityId * DimensionId * string)) :
  forall w,
    let w' :=
      worldOf (forEach (fun '(entity, dimension, tag) =>
                          processEntity itemValid entity dimension tag) l w) in
    (forall d', (forall id d tag, (id, d, tag) ∈ l -> d <> d') ->
                getDimension d' w' = getDimension d' w) /\
    (forall d id, (d, id) ∉ entryKey <$> l -> entityAt d id w' = entityAt d id w).
Proof.
  induction l as [|[[id d] tag] l IH]; intros w; [cbn; auto|].
  cbn [forEach]. unfold bind.
  pose proof (processEntity_sameElsewhere itemValid d id tag w) as Hsame.
  destruct (processEntity itemValid id d tag w) as [[] w1 | err w1]; cbn [worldOf] in *.
  - destruct (IH w1) as (Hdims' & Hents'). split.
    + intros d' Hl. rewrite Hdims'.
      * apply (proj1 Hsame). intros ->. apply (Hl id d tag); [left | reflexivity].
      * intros id0 d0 tag0 H0. apply (Hl id0 d0 tag0). right. exact H0.
    + intros d0 id0 Hnotin. rewrite fmap_cons in Hnotin.
      apply not_elem_of_cons in Hnotin as [Hne Hnotin].
      rewrite Hents' by exact Hnotin.
      apply (sameElsewhere_entityAt _ _ _ _ Hsame). exact Hne.
  - split.
    + intros d' Hl. apply (proj1 Hsame). intros ->.
      apply (Hl id d tag); [left | reflexivity].
    + intros d0 id0 Hnotin. rewrite fmap_cons in Hnotin.
      apply not_elem_of_cons in Hnotin as [Hne _].
      apply (sameElsewhere_entityAt _ _ _ _ Hsame). exact Hne.
Qed.



(** X16: a step of the loop, however it ends, leaves a dimension that
    holds no generator exactly as it was (blocks, entities and items),
    whatever the generators of the other dimensions do; and in every
    dimension it leaves each entity that carries no [gen:] tag as it
    was. *)
Theorem tick_leaves_idle_dimensions (w : World) :
  let w' := worldOf (tick itemValid w) in
  (forall d',
     (forall id e, entityAt d' id w = Some e -> genTagOf e = None) ->
     getDimension d' w' = getDimension d' w) /\
  (forall d id e,
     entityAt d id w = Some e -> genTagOf e = None -> entityAt d id w' = Some e).
Proof.
  intros w'.
  destruct (forEach_processEntity_frame (snapshot w) w) as (Hdims & Hents).
  split.
  - intros d' Hidle. apply Hdims.
    intros id d tag Hsnap ->. apply elem_of_snapshot in Hsnap as (e & He & Htag).
    rewrite (Hidle id e He) in Htag. discriminate Htag.
  - intros d id e He Hnone. subst w'. unfold tick. fold (snapshot w).
    rewrite Hents; [exact He|].
    intros Hin. apply list_elem_of_fmap in Hin as ([[id' d'] tag'] & Hk & Hin).
    cbn in Hk. injection Hk as -> ->.
    apply elem_of_snapshot in Hin as (e' & He' & Htag). congruence.
Qed.

(** X17: when the countdown of a running generator runs out and the item
    system refuses its item, the step of the loop kills the marker,
    broadcasts the two diagnostics and emits nothing, and no generator is
    left; the block it sets to air is the one [BARRIER_OFFSET] above the
    marker, 199 above the configured block, and the anchor keeps whatever
    block it held. *)
Theorem refused_item_ends_generator (d : DimensionId) (m : EntityId) (tag : string)
    (bx by_ bz c : Z) (w : World) :
  running d m tag (bx, by_, bz) c w -> c <= 1 ->
  itemAccepted itemValid (tagValues tag) = false ->
  exists w',
    tick itemValid w = Ok tt w' /\
    entityAt d m w' = None /\
    chat w' = chat w ++ [MSG_INVALID_GENERATOR; MSG_INVALID_ITEM] /\
    (forall d', itemsOf d' w' = itemsOf d' w) /\
    blockAt d (bx, by_ + 199, bz) w' = "minecraft:air" /\
    (forall d' p, (d', p) <> (d, (bx, by_ + 199, bz)) -> blockAt d' p w' = blockAt d' p w) /\
    noGenerators w'.
Proof.
  intros Hrun Hc Hacc. pose proof (running_sole _ _ _ _ _ _ Hrun) as Hsole.
  destruct Hrun as [(e & He & Hloc & Htag & Hlabel) [Hblock Hothers]].
  rewrite (tick_sole itemValid d m tag w Hsole). unfold bind.
  rewrite (processEntity_item_rejected itemValid d m tag w e c He); [|
    rewrite (probedBlock_marker e bx by_ bz Hloc); exact Hblock
    | exact Hlabel | exact Hc | exact Hacc].
  assert (floorPos (add_y (location e) BARRIER_OFFSET) = (bx, by_ + 199, bz)) as ->.
  { rewrite Hloc. unfold floorPos, markerPos, add_y, toVector, BARRIER_OFFSET; cbn [vx vy vz].
    rewrite !Qfloor_half. rewrite (Qfloor_shift by_ 199); [reflexivity|].
    change (inject_Z 199) with 199%Q. lra. }
  cbn [ret]. eexists. split; [reflexivity|].
  split; [rewrite !entityAt_putChat; apply entityAt_putEntity_eq|].
  split; [rewrite !chat_putChat, chat_putEntity, chat_putBlock, <- app_assoc; reflexivity|].
  split; [intros d'; rewrite !itemsOf_putChat, itemsOf_putEntity; apply itemsOf_putBlock|].
  split.
  { rewrite !blockAt_putChat, blockAt_putEntity, blockAt_putBlock.
    rewrite decide_True by (split; reflexivity). reflexivity. }
  split.
  { intros d' p Hne. rewrite !blockAt_putChat, blockAt_putEntity, blockAt_putBlock.
    rewrite decide_False by (intros [Hd Hp]; apply Hne; congruence). reflexivity. }
  intros d' id e'. rewrite !entityAt_putChat, entityAt_putEntity.
  destruct (decide (d = d' /\ m = id)) as [_ | Hne]; [discriminate|].
  rewrite entityAt_putBlock. apply Hothers.
  intros Heq. apply Hne. injection Heq as -> ->. split; reflexivity.
Qed.

End Dimensions.


(** X17, witness: a generator of interval 1 for an item the vanilla items
    do not hold, on the stone block. *)
Lemma refused_item_ends_generator_witness :
  let settings := mkSettings (Int 1) (Some "minecraft:not_an_item") (Int 1) in
  let w := worldOf (setUpArmorStand (mkBlock Overworld (0, 64, 0)) settings stoneWorld) in
  exists w',
    tick vanillaItems w = Ok tt w' /\
    entityAt Overworld 0 w' = None /\
    chat w' = chat w ++ [MSG_INVALID_GENERATOR; MSG_INVALID_ITEM] /\
    (forall d', itemsOf d' w' = itemsOf d' w) /\
    blockAt Overworld (0, 64 + 199, 0) w' = "minecraft:air" /\
    (forall d' p, (d', p) <> (Overworld, (0, 64 + 199, 0)) ->
                  blockAt d' p w' = blockAt d' p w) /\
    noGenerators w'.
Proof.
  apply (refused_item_ends_generator vanillaItems Overworld 0%nat
           (genTag (mkSettings (Int 1) (Some "minecraft:not_an_item") (Int 1)) (0, 64, 0))
           0 64 0 1).
  - apply (running_placed stoneWorld Overworld 0 64 0 1 1 "minecraft:not_an_item").
    + reflexivity.
    + vm_compute. discriminate.
    + intros d id e H. destruct d; vm_compute in H; discriminate H.
  - lia.
  - reflexivity.
Defined.
